(** * Quotation preview: line estimate, page planner, totals

    A shallow embedding of the computational core of the [QuotationPreview]
    component: the [pages] memo (with its local helpers [getItemHeight] and
    [countLines]), the totals computed below it ([taxFactor],
    [getPreTaxUnitPrice], [calculatedSubtotal], [taxableAmount], [taxAmount],
    [total]) and the row-number helper [getGlobalIndex].

    Modelling conventions.
    - A JavaScript [number] that the code only ever uses as an integer (line
      counts, pixel heights, array indices) is a [Z] or a [nat].
    - The other [number]s (prices, quantities, the tax rate, the discount)
      are IEEE 754 doubles.  Module [Double] models them bit for bit with the
      standard library's [spec_float] at precision 53 and exponent bound
      1024, and repeats the totals on them; whatever is said about the value
      of a total, a tax amount or an effective unit price is said there.
    - The same expressions are also read in exact rational arithmetic ([Q],
      equality [==]); that reading carries the results that do not depend on
      how a quotient, a product or a sum is rounded (signs, monotonicity,
      whole amounts, what an edit leaves untouched).
    - A string is a [string]; one character stands for one UTF-16 code unit,
      which is all that [.length] and [split] look at.
    - [string | null] is [option string]. *)

From Stdlib Require Import ZArith QArith Qround Qminmax Qabs Lia Lqa String Ascii List.
From Stdlib Require Import DecimalString SpecFloat Qpower.
From stdpp Require Import base list.
Import ListNotations.

Open Scope Z_scope.

(** ** JavaScript built-ins used by the component *)

Module Math.

(** [Math.ceil]: the least integer not below the argument. *)
Definition ceil (x : Q) : Z := Qceiling x.

(** [Math.round]: the nearest integer, a tie going to the larger
    neighbour, that is [floor (x + 1/2)]. *)
Definition round (x : Q) : Z := Qfloor (x + (1 # 2)).

(** [Math.max] on integer-valued and on arbitrary numbers. *)
Definition max (a b : Z) : Z := Z.max a b.
Definition max3 (a b c : Z) : Z := Z.max (Z.max a b) c.
Definition maxQ (a b : Q) : Q := Qmax a b.

End Math.

(** [Array.prototype.forEach] with a callback that updates local variables:
    the variables are threaded through as a state [St].  The second version
    also hands the callback the element's index. *)
Definition forEach {A St : Type} (l : list A) (f : St -> A -> St) (s : St) : St :=
  fold_left f l s.

Fixpoint forEach_from {A St : Type} (index : nat) (l : list A)
    (f : St -> A -> nat -> St) (s : St) : St :=
  match l with
  | [] => s
  | x :: l' => forEach_from (S index) l' f (f s x index)
  end.

Definition forEachi {A St : Type} (l : list A) (f : St -> A -> nat -> St) (s : St) : St :=
  forEach_from 0%nat l f s.

(** The line feed, ['\n']. *)
Definition newline : ascii := Ascii.ascii_of_nat 10.

(** [text.split(sep)] for a one-character separator: the maximal
    separator-free segments, in order; a text with [k] separators has [k+1]
    segments, some possibly empty. *)
Fixpoint split (sep : ascii) (text : string) : list string :=
  match text with
  | EmptyString => [EmptyString]
  | String c rest =>
      if Ascii.eqb c sep then EmptyString :: split sep rest
      else match split sep rest with
           | seg :: segs => String c seg :: segs
           | [] => [String c EmptyString]
           end
  end.

(** [segments.join(sep)], the inverse of [split]. *)
Fixpoint join (sep : ascii) (segments : list string) : string :=
  match segments with
  | [] => EmptyString
  | [seg] => seg
  | seg :: rest => String.append seg (String sep (join sep rest))
  end.

(** How often the separator occurs in a text. *)
Fixpoint occurrences (sep : ascii) (t : string) : nat :=
  match t with
  | EmptyString => 0
  | String c rest => (if Ascii.eqb c sep then 1 else 0) + occurrences sep rest
  end.

(** Truthiness of a [string | null]: [null] and the empty string are falsy. *)
Definition truthy (text : option string) : bool :=
  match text with
  | None => false
  | Some EmptyString => false
  | Some (String _ _) => true
  end.

(** [line.length] as a number. *)
Definition len (line : string) : Q := inject_Z (Z.of_nat (String.length line)).

(** ** Data model (types.ts) *)

Record QuoteItem : Type := mkItem {
  id : Z;
  name : string;
  spec : string;
  description : option string;
  quantity : Q;
  price : Q
}.

Record QuoteDetails : Type := mkDetails {
  number : string;
  date : string;
  taxRate : Q
}.

(** The fields of [QuotationData] that the core reads. *)
Record QuotationData : Type := mkData {
  quoteDetails : QuoteDetails;
  items : list QuoteItem;
  discount : Q;
  isTaxInclusive : bool
}.

(** ** Layout constants *)

Definition A4_CONTENT_HEIGHT : Z := 1050.
Definition HEADER_HEIGHT : Z := 380.
Definition FOOTER_HEIGHT : Z := 320.
Definition PAGE_2_HEADER_HEIGHT : Z := 60.
Definition ROW_BASE_HEIGHT : Z := 45.
Definition ROW_LINE_HEIGHT : Z := 24.
Definition BOTTOM_SPACER : Z := 50.

(** The [limit] local of the loop body. *)
Definition limit : Z := A4_CONTENT_HEIGHT - BOTTOM_SPACER.

(** ** Line estimate and row height *)

Definition countLines (text : option string) (approxCharsPerLine : Q) : Z :=
  if negb (truthy text) then 1
  else
    let explicitLines := split newline (default EmptyString text) in
    forEach explicitLines
      (fun totalLines line =>
         totalLines + Math.max 1 (Math.ceil (len line / approxCharsPerLine)))
      0.

Definition getItemHeight (item : QuoteItem) : Z :=
  let nameLines := countLines (Some (name item)) 22 in
  let descLines := countLines (description item) 35 in
  let specLines := countLines (Some (spec item)) 15 in
  let nameBlockLines :=
    nameLines + (if truthy (description item) then descLines else 0) in
  let maxLines := Math.max3 nameBlockLines specLines 1 in
  ROW_BASE_HEIGHT + (maxLines - 1) * ROW_LINE_HEIGHT.

(** ** Page planner *)

(** The mutable locals of the [pages] memo. *)
Record PlanState : Type := mkPlan {
  resultPages : list (list QuoteItem);
  currentPageItems : list QuoteItem;
  currentHeight : Z;
  pageIndex : nat
}.

Definition initialPlan : PlanState :=
  mkPlan [] [] HEADER_HEIGHT 0%nat.

(** The [else] arm of the loop body: an item that is not the last one. *)
Definition innerItemStep (st : PlanState) (item : QuoteItem) : PlanState :=
  let itemHeight := getItemHeight item in
  if currentHeight st + itemHeight >? limit then
    mkPlan (resultPages st ++ [currentPageItems st])
           [item]
           (PAGE_2_HEADER_HEIGHT + itemHeight)
           (S (pageIndex st))
  else
    mkPlan (resultPages st)
           (currentPageItems st ++ [item])
           (currentHeight st + itemHeight)
           (pageIndex st).

(** The [if (isLastItemGlobal)] arm of the loop body. *)
Definition lastItemStep (st : PlanState) (item : QuoteItem) : PlanState :=
  let itemHeight := getItemHeight item in
  if currentHeight st + itemHeight + FOOTER_HEIGHT >? A4_CONTENT_HEIGHT then
    if currentHeight st + itemHeight <? limit then
      mkPlan (resultPages st ++ [currentPageItems st ++ [item]])
             []
             PAGE_2_HEADER_HEIGHT
             (pageIndex st)
    else
      mkPlan (resultPages st ++ [currentPageItems st])
             [item]
             (PAGE_2_HEADER_HEIGHT + itemHeight)
             (pageIndex st)
  else
    mkPlan (resultPages st)
           (currentPageItems st ++ [item])
           (currentHeight st + itemHeight)
           (pageIndex st).

(** The body of [data.items.forEach((item, index) => ...)]; [n] is
    [data.items.length]. *)
Definition planStep (n : nat) (st : PlanState) (item : QuoteItem) (index : nat)
    : PlanState :=
  let isLastItemGlobal := Nat.eqb index (n - 1) in
  if isLastItemGlobal then lastItemStep st item else innerItemStep st item.

(** The two-armed flush after the loop. *)
Definition flush (st : PlanState) : list (list QuoteItem) :=
  if (0 <? length (currentPageItems st))%nat then
    resultPages st ++ [currentPageItems st]
  else if Nat.eqb (length (resultPages st)) 0 then
    resultPages st ++ [[]]
  else
    resultPages st.

(** The state after the loop has run over a whole list. *)
Definition planLoop (l : list QuoteItem) : PlanState :=
  forEachi l (planStep (length l)) initialPlan.

(** The value of the [pages] memo. *)
Definition pages (data : QuotationData) : list (list QuoteItem) :=
  flush (planLoop (items data)).

(** The state in which the loop reaches the item that follows [l], when
    more than that one item is still to come. *)
Definition fill (l : list QuoteItem) (st : PlanState) : PlanState :=
  fold_left innerItemStep l st.

(** What a plan state holds, read in order: the closed pages and then the
    page being filled. *)
Definition placed (st : PlanState) : list QuoteItem :=
  concat (resultPages st) ++ currentPageItems st.

(** A page that holds at least one item. *)
Definition nonempty (pg : list QuoteItem) : Prop := pg <> [].

(** A page on which an item taller than [limit] has no company. *)
Definition tallAlone (pg : list QuoteItem) : Prop :=
  forall it : QuoteItem, it ∈ pg -> limit < getItemHeight it -> pg = [it].

(** What the loop maintains about tall items: closed pages keep them alone,
    the height counter is positive, and the page being filled either holds no
    tall item or is a single item that already passed [limit]. *)
Definition tallInv (st : PlanState) : Prop :=
  Forall tallAlone (resultPages st)
  /\ 0 < currentHeight st
  /\ ((forall it : QuoteItem,
         it ∈ currentPageItems st -> getItemHeight it <= limit)
      \/ (exists it : QuoteItem,
            currentPageItems st = [it] /\ limit < currentHeight st)).

(** ** Row numbers *)

(** The [for] loop of [getGlobalIndex], started at [i] with [k] iterations to
    go.  Reading [pages[i].length] past the end of the array throws; that is
    [None]. *)
Fixpoint countBefore (pgs : list (list QuoteItem)) (i k : nat) (count : nat)
    : option nat :=
  match k with
  | O => Some count
  | S k' =>
      match pgs !! i with
      | None => None
      | Some pg => countBefore pgs (S i) k' (count + length pg)
      end
  end.

Definition getGlobalIndex (pgs : list (list QuoteItem))
    (pageIndex localIndex : nat) : option nat :=
  match countBefore pgs 0 pageIndex 0 with
  | None => None
  | Some count => Some (count + localIndex + 1)%nat
  end.

(** ** Totals *)

(** The totals read in exact arithmetic.  The values that the program
    computes are those of Module [Double] below; the definitions here are
    used for what holds of the expressions whatever the rounding of the
    single operations. *)

Definition taxFactor (data : QuotationData) : Q :=
  (1 + taxRate (quoteDetails data) / 100)%Q.

Definition getPreTaxUnitPrice (data : QuotationData) (price : Q) : Q :=
  if isTaxInclusive data then inject_Z (Math.round (price / taxFactor data))
  else price.

(** The row amount shown in the table body. *)
Definition rowAmount (data : QuotationData) (item : QuoteItem) : Q :=
  let effectiveUnitPrice := getPreTaxUnitPrice data (price item) in
  (effectiveUnitPrice * quantity item)%Q.

Definition calculatedSubtotal (data : QuotationData) : Q :=
  forEach (items data)
    (fun calculatedSubtotal item =>
       let unitPrice := getPreTaxUnitPrice data (price item) in
       (calculatedSubtotal + unitPrice * quantity item)%Q)
    0%Q.

(** [data.discount || 0]: a zero discount is falsy. *)
Definition discountOrZero (data : QuotationData) : Q :=
  if Qeq_bool (discount data) 0 then 0%Q else discount data.

Definition taxableAmount (data : QuotationData) : Q :=
  Math.maxQ 0 (calculatedSubtotal data - discountOrZero data).

Definition taxAmount (data : QuotationData) : Q :=
  inject_Z (Math.round (taxableAmount data * (taxRate (quoteDetails data) / 100))).

Definition total (data : QuotationData) : Q :=
  (taxableAmount data + taxAmount data)%Q.

(** ** The specification's formulas, for comparison with the code *)

Module Spec.

(** Lines of one segment: [ceil (max (1, length segment) / charsPerLine)]. *)
Definition segmentLines (charsPerLine : Q) (segment : string) : Z :=
  Math.ceil (Qmax 1 (len segment) / charsPerLine).

Fixpoint sumZ (l : list Z) : Z :=
  match l with
  | [] => 0
  | x :: l' => x + sumZ l'
  end.

(** Absent or empty text is one line; otherwise the segment lines are
    summed over the segments between explicit line breaks. *)
Definition estimateLines (text : option string) (charsPerLine : Q) : Z :=
  match text with
  | None => 1
  | Some EmptyString => 1
  | Some t => sumZ (map (segmentLines charsPerLine) (split newline t))
  end.

(** The name block counts the description whenever it is present, the
    empty description included. *)
Definition nameBlockLines (item : QuoteItem) : Z :=
  estimateLines (Some (name item)) 22
  + match description item with
    | Some d => estimateLines (Some d) 35
    | None => 0
    end.

Definition rowHeight (item : QuoteItem) : Z :=
  let specLines := estimateLines (Some (spec item)) 15 in
  ROW_BASE_HEIGHT
  + (Z.max (Z.max (nameBlockLines item) specLines) 1 - 1) * ROW_LINE_HEIGHT.

(** Rounding to the nearest integer, a tie going away from zero. *)
Definition roundHalfAwayFromZero (x : Q) : Z :=
  if Qle_bool 0 x then Qfloor (x + (1 # 2)) else Qceiling (x - (1 # 2)).

Fixpoint sumQ (l : list Q) : Q :=
  match l with
  | [] => 0%Q
  | x :: l' => (x + sumQ l')%Q
  end.

(** The subtotal as the sum of the row amounts in list order. *)
Definition subtotal (data : QuotationData) : Q :=
  sumQ (map (rowAmount data) (items data)).

End Spec.

(** A text without an explicit line break. *)
Fixpoint noLineBreak (text : string) : bool :=
  match text with
  | EmptyString => true
  | String c rest => negb (Ascii.eqb c newline) && noLineBreak rest
  end.

(** The page list ends with an item-free page that follows another page. *)
Definition endsWithFooterOnlyPage (pgs : list (list QuoteItem)) : bool :=
  match last pgs with
  | Some [] => (1 <? length pgs)%nat
  | _ => false
  end.

(** ** Sample data *)

(** The item that [addItem] appends. *)
Definition blankItem (i : Z) : QuoteItem :=
  mkItem i EmptyString EmptyString None 1 0.

Definition sampleDetails (rate : Q) : QuoteDetails :=
  mkDetails "Q-001" "2024-01-01" rate.

Definition eightBlankItems : list QuoteItem :=
  map blankItem [1; 2; 3; 4; 5; 6; 7; 8].

Definition eightBlankData : QuotationData :=
  mkData (sampleDetails 5) eightBlankItems 0 false.

(** A text of [n] explicit line breaks and nothing else. *)
Fixpoint lineBreaks (n : nat) : string :=
  match n with
  | O => EmptyString
  | S n' => String newline (lineBreaks n')
  end.

(** An item whose name has 41 explicit lines: its row is 1005 high. *)
Definition tallItem : QuoteItem :=
  mkItem 2 (lineBreaks 40) EmptyString None 1 0.

Definition tallItemData : QuotationData :=
  mkData (sampleDetails 5) [blankItem 1; tallItem; blankItem 3] 0 false.

(** An item whose name has four explicit lines: its row is 117 high. *)
Definition fourLineItem (i : Z) : QuoteItem :=
  mkItem i (lineBreaks 3) EmptyString None 1 0.

(** Five four-line items fill the first page; three blank items follow. *)
Definition fiveThreeData : QuotationData :=
  mkData (sampleDetails 5)
    (map fourLineItem [1; 2; 3; 4; 5] ++ map blankItem [6; 7; 8]) 0 false.

(** A single item too tall for the first page: an empty page precedes it. *)
Definition tallOnlyData : QuotationData :=
  mkData (sampleDetails 5) [tallItem] 0 false.

(** A tax-inclusive document at 5 % with one item priced 1050. *)
Definition inclusiveData : QuotationData :=
  mkData (sampleDetails 5) [mkItem 1 EmptyString EmptyString None 1 1050] 0 true.

(** A tax-exclusive document: 20 units at 500, no discount, 5 % tax. *)
Definition exclusiveData : QuotationData :=
  mkData (sampleDetails 5) [mkItem 1 EmptyString EmptyString None 20 500] 0 false.

(** An item whose description was switched on and left empty. *)
Definition emptyDescriptionItem : QuoteItem :=
  mkItem 1 EmptyString EmptyString (Some EmptyString) 1 0.

(** Two explicit line breaks and nothing else: three empty segments. *)
Definition twoLineBreaks : string :=
  String newline (String newline EmptyString).

(** * The surrounding code *)

(** ** Page geometry read off the planner *)

(** The height a page starts with: the first page carries the full header,
    every later page the short one. *)
Definition pageHeader (p : nat) : Z :=
  if Nat.eqb p 0 then HEADER_HEIGHT else PAGE_2_HEADER_HEIGHT.

(** The summed row heights of a page. *)
Definition rowsHeight (pg : list QuoteItem) : Z :=
  Spec.sumZ (map getItemHeight pg).

(** A page is within the limit, or it is a continuation page of one item. *)
Definition fitsPage (p : nat) (pg : list QuoteItem) : Prop :=
  pageHeader p + rowsHeight pg <= limit
  \/ ((0 < p)%nat /\ exists x : QuoteItem, pg = [x]).

(** A page list in which every page satisfies [fitsPage] and a page ends
    only where the item that opens the next page would have reached or
    passed the limit. *)
Definition pagesOk (pgs : list (list QuoteItem)) : Prop :=
  (forall (p : nat) (pg : list QuoteItem),
     pgs !! p = Some pg -> fitsPage p pg)
  /\ (forall (p : nat) (pg : list QuoteItem) (x : QuoteItem)
             (rest : list QuoteItem),
        pgs !! p = Some pg -> pgs !! S p = Some (x :: rest) ->
        limit <= pageHeader p + rowsHeight pg + getItemHeight x).

(** What the loop maintains about heights before the last item: the counter
    is the header of the page being filled plus its rows; the closed pages
    followed by the page being filled are [pagesOk]; and the page being
    filled is empty only as long as no page was closed. *)
Record flowInv (st : PlanState) : Prop := mkFlowInv {
  flow_height :
    currentHeight st
    = pageHeader (length (resultPages st)) + rowsHeight (currentPageItems st);
  flow_pages : pagesOk (resultPages st ++ [currentPageItems st]);
  flow_nonempty : resultPages st <> [] -> currentPageItems st <> []
}.

(** The flags computed for each page in the render loop. *)
Definition isFirstPage (pageIndex : nat) : bool := Nat.eqb pageIndex 0.

Definition isLastPage (pgs : list (list QuoteItem)) (pageIndex : nat) : bool :=
  Nat.eqb pageIndex (length pgs - 1).

(** The index used for array manipulation: [globalIndex - 1]. *)
Definition arrayIndex (pgs : list (list QuoteItem)) (pageIndex localIndex : nat)
    : option nat :=
  match getGlobalIndex pgs pageIndex localIndex with
  | None => None
  | Some globalIndex => Some (globalIndex - 1)%nat
  end.

(** ** Item handlers of the application *)

(** [{ ...prev, items: l }]. *)
Definition withItems (prev : QuotationData) (l : list QuoteItem) : QuotationData :=
  mkData (quoteDetails prev) l (discount prev) (isTaxInclusive prev).

(** A field of a [QuoteItem] together with a value of the field's type: the
    [(field, value)] arguments of [updateItem]. *)
Inductive FieldValue : Type :=
  | IdField (value : Z)
  | NameField (value : string)
  | SpecField (value : string)
  | DescriptionField (value : option string)
  | QuantityField (value : Q)
  | PriceField (value : Q).

(** [{ ...item, [field]: value }]. *)
Definition setField (item : QuoteItem) (fv : FieldValue) : QuoteItem :=
  match fv with
  | IdField v =>
      mkItem v (name item) (spec item) (description item) (quantity item) (price item)
  | NameField v =>
      mkItem (id item) v (spec item) (description item) (quantity item) (price item)
  | SpecField v =>
      mkItem (id item) (name item) v (description item) (quantity item) (price item)
  | DescriptionField v =>
      mkItem (id item) (name item) (spec item) v (quantity item) (price item)
  | QuantityField v =>
      mkItem (id item) (name item) (spec item) (description item) v (price item)
  | PriceField v =>
      mkItem (id item) (name item) (spec item) (description item) (quantity item) v
  end.

(** The state updater of [updateItem (id, field, value)]. *)
Definition updateItem (i : Z) (fv : FieldValue) (prev : QuotationData)
    : QuotationData :=
  withItems prev
    (map (fun item => if Z.eqb (id item) i then setField item fv else item)
       (items prev)).

(** The state updater of [addItem]; [now] is the value of [Date.now ()]. *)
Definition addItem (now : Z) (prev : QuotationData) : QuotationData :=
  withItems prev (items prev ++ [mkItem now EmptyString EmptyString None 1 0]).

(** [deleteItem (id)]: the guard reads the rendered state [quotation], the
    updater runs on [prev]; without the update the state stays [prev]. *)
Definition deleteItem (quotation : QuotationData) (i : Z) (prev : QuotationData)
    : QuotationData :=
  if (length (items quotation) <=? 1)%nat then prev
  else withItems prev
         (List.filter (fun item => negb (Z.eqb (id item) i)) (items prev)).

(** The fields that the row-height estimate reads. *)
Definition touchesText (fv : FieldValue) : bool :=
  match fv with
  | NameField _ | SpecField _ | DescriptionField _ => true
  | IdField _ | QuantityField _ | PriceField _ => false
  end.

(** The fields that the totals read. *)
Definition touchesAmount (fv : FieldValue) : bool :=
  match fv with
  | QuantityField _ | PriceField _ => true
  | IdField _ | NameField _ | SpecField _ | DescriptionField _ => false
  end.

(** A plan state with every item replaced by its image under [g]. *)
Definition mapPlan (g : QuoteItem -> QuoteItem) (st : PlanState) : PlanState :=
  mkPlan (map (map g) (resultPages st)) (map g (currentPageItems st))
    (currentHeight st) (pageIndex st).

(** ** Reordering by drag and drop *)

(** The two refs of the preview. *)
Record DragRefs : Type := mkRefs {
  dragItem : option nat;
  dragOverItem : option nat
}.

(** [a.splice (start, 1)] and [a.splice (start, 0, x)]; a start past the end
    is clamped to the end. *)
Definition spliceOut {A : Type} (start : nat) (a : list A) : list A :=
  take start a ++ drop (S start) a.

Definition spliceIn {A : Type} (start : nat) (x : A) (a : list A) : list A :=
  take start a ++ x :: drop start a.

(** [handleSort]: the new document and the refs afterwards.  Reading
    [_items[dragItem.current]] out of range gives [undefined], which would
    then be spliced into the item array; that result is no item list and is
    [None]. *)
Definition handleSort (refs : DragRefs) (data : QuotationData)
    : option (QuotationData * DragRefs) :=
  match dragItem refs, dragOverItem refs with
  | Some from, Some to =>
      if Nat.eqb from to then Some (data, mkRefs None None)
      else
        match items data !! from with
        | None => None
        | Some draggedItemContent =>
            let _items := spliceOut from (items data) in
            let _items := spliceIn to draggedItemContent _items in
            Some (withItems data _items, mkRefs None None)
        end
  | _, _ => Some (data, refs)
  end.

(** ** The single-page preview *)

(** The other preview component of the repository keeps all rows on one
    page and rounds the pre-tax amount per row, not per unit price. *)
Module SinglePage.

(** The amount shown in a row. *)
Definition rowAmount (data : QuotationData) (item : QuoteItem) : Q :=
  if isTaxInclusive data
  then inject_Z (Math.round (price item * quantity item / taxFactor data))
  else (price item * quantity item)%Q.

Definition calculatedSubtotal (data : QuotationData) : Q :=
  forEach (items data)
    (fun calculatedSubtotal item =>
       if isTaxInclusive data
       then (calculatedSubtotal
             + inject_Z (Math.round (price item * quantity item / taxFactor data)))%Q
       else (calculatedSubtotal + price item * quantity item)%Q)
    0%Q.

Definition taxableAmount (data : QuotationData) : Q :=
  Math.maxQ 0 (calculatedSubtotal data - discountOrZero data).

Definition taxAmount (data : QuotationData) : Q :=
  inject_Z (Math.round (taxableAmount data * (taxRate (quoteDetails data) / 100))).

Definition total (data : QuotationData) : Q :=
  (taxableAmount data + taxAmount data)%Q.

End SinglePage.

(** ** Image downscaling *)



(** ** The arithmetic question asked before a file is deleted *)

(** [Math.floor (Math.random () * n)] for a draw [r] of [Math.random]. *)
Definition randomBelow (r : Q) (n : Z) : Z := Qfloor (r * inject_Z n).

(** [String (n)] for an integer. *)
Definition numberToString (n : Z) : string :=
  NilZero.string_of_int (Z.to_int n).

(** [options.add (x)] on a [Set] kept in insertion order. *)
Definition setAdd (x : Z) (options : list Z) : list Z :=
  if existsb (Z.eqb x) options then options else options ++ [x].

(** The [while (options.size < 3)] loop; every turn takes one draw.  The
    result is the set and the draws not used; [None] when the draws run out
    before the set has three elements. *)
Fixpoint optionsLoop (answer : Z) (draws : list Q) (options : list Z)
    : option (list Z * list Q) :=
  match draws with
  | [] => if (length options <? 3)%nat then None else Some (options, [])
  | r :: draws' =>
      if (length options <? 3)%nat then
        let wrong := answer + randomBelow r 5 - 2 in
        if (wrong >? 0) && negb (wrong =? answer)
        then optionsLoop answer draws' (setAdd wrong options)
        else optionsLoop answer draws' options
      else Some (options, draws)
  end.

Record MathProblem : Type := mkProblem {
  question : string;
  answer : Z;
  options : list Z
}.

(** [generateMathProblem] over the sequence of values that [Math.random]
    returns.  The final [sort] with a random comparator arranges the options
    in an order the language leaves to the implementation; it is the
    argument [sortRandomly], applied to the draws that are left. *)
Definition generateMathProblem
    (sortRandomly : list Q -> list Z -> list Z) (draws : list Q)
    : option MathProblem :=
  match draws with
  | r1 :: r2 :: draws' =>
      let num1 := randomBelow r1 9 + 1 in
      let num2 := randomBelow r2 9 + 1 in
      let answer := num1 + num2 in
      match optionsLoop answer draws' (setAdd answer []) with
      | None => None
      | Some (options, draws'') =>
          Some (mkProblem
                  (numberToString num1 ++ " + " ++ numberToString num2 ++ " = ?")
                  answer
                  (sortRandomly draws'' options))
      end
  | _ => None
  end.

(** A value that [Math.random] can return. *)
Definition unitDraw (r : Q) : Prop := (0 <= r)%Q /\ (r < 1)%Q.

(** What the loop maintains about the set of options. *)
Definition optionsInv (answer : Z) (options : list Z) : Prop :=
  In answer options
  /\ List.NoDup options
  /\ (length options <= 3)%nat
  /\ (forall o : Z, In o options -> 0 < o /\ answer - 2 <= o <= answer + 2).

(** * JavaScript numbers: the totals in double precision *)

Module Double.

(** Binary64. *)
Definition prec : Z := 53.
Definition emax : Z := 1024.

Definition double : Type := spec_float.

(** The four operations, each rounded to nearest, ties to even. *)
Definition add (x y : double) : double := SFadd prec emax x y.
Definition sub (x y : double) : double := SFsub prec emax x y.
Definition mul (x y : double) : double := SFmul prec emax x y.
Definition div (x y : double) : double := SFdiv prec emax x y.

(** An integer literal such as [0], [1] or [100]. *)
Definition ofZ (n : Z) : double := binary_normalize prec emax n 0 false.

Definition zero : double := S754_zero false.

(** The rational number that a finite non-zero double stands for, and the
    value of any double that has one. *)
Definition finiteValue (s : bool) (m : positive) (e : Z) : Q :=
  (inject_Z (cond_Zopp s (Zpos m)) * 2 ^ e)%Q.

Definition value (x : double) : option Q :=
  match x with
  | S754_zero _ => Some 0%Q
  | S754_finite s m e => Some (finiteValue s m e)
  | S754_infinity _ | S754_nan => None
  end.

(** The double of an integer [r] reached from a number of sign [s]: a zero
    keeps that sign. *)
Definition ofInteger (s : bool) (r : Z) : double :=
  if r =? 0 then S754_zero s else ofZ r.

(** [Math.round]: zeros, infinities and NaN are returned as they are; a
    finite [x] gives the integer [floor (x + 1/2)], computed on the exact
    value of [x]. *)
Definition round (x : double) : double :=
  match x with
  | S754_finite s m e => ofInteger s (Math.round (finiteValue s m e))
  | _ => x
  end.

(** [Math.max] of two numbers: NaN if either is, and [+0] above [-0]. *)
Definition max (a b : double) : double :=
  match SFcompare a b with
  | None => S754_nan
  | Some Lt => b
  | Some Gt => a
  | Some Eq => match a with S754_zero true => b | _ => a end
  end.

(** [x || 0]: the falsy numbers are both zeros and NaN. *)
Definition orZero (x : double) : double :=
  match x with
  | S754_zero _ | S754_nan => zero
  | _ => x
  end.

(** The data model with its numbers as doubles. *)
Record QuoteItem : Type := mkItem {
  id : Z;
  name : string;
  spec : string;
  description : option string;
  quantity : double;
  price : double
}.

Record QuoteDetails : Type := mkDetails {
  number : string;
  date : string;
  taxRate : double
}.

Record QuotationData : Type := mkData {
  quoteDetails : QuoteDetails;
  items : list QuoteItem;
  discount : double;
  isTaxInclusive : bool
}.

Definition taxFactor (data : QuotationData) : double :=
  add (ofZ 1) (div (taxRate (quoteDetails data)) (ofZ 100)).

Definition getPreTaxUnitPrice (data : QuotationData) (price : double) : double :=
  if isTaxInclusive data then round (div price (taxFactor data)) else price.

(** The row amount shown in the table body. *)
Definition rowAmount (data : QuotationData) (item : QuoteItem) : double :=
  let effectiveUnitPrice := getPreTaxUnitPrice data (price item) in
  mul effectiveUnitPrice (quantity item).

Definition calculatedSubtotal (data : QuotationData) : double :=
  forEach (items data)
    (fun calculatedSubtotal item =>
       let unitPrice := getPreTaxUnitPrice data (price item) in
       add calculatedSubtotal (mul unitPrice (quantity item)))
    zero.

Definition taxableAmount (data : QuotationData) : double :=
  max zero (sub (calculatedSubtotal data) (orZero (discount data))).

Definition taxAmount (data : QuotationData) : double :=
  round (mul (taxableAmount data) (div (taxRate (quoteDetails data)) (ofZ 100))).

Definition total (data : QuotationData) : double :=
  add (taxableAmount data) (taxAmount data).

(** The specification's formulas on doubles. *)
Module Spec.

(** Rounding to the nearest integer, a tie going away from zero. *)
Definition roundHalfAwayFromZero (x : double) : double :=
  match x with
  | S754_finite s m e =>
      ofInteger s (Spec.roundHalfAwayFromZero (finiteValue s m e))
  | _ => x
  end.

(** The sum of a list taken in list order, starting from 0. *)
Fixpoint sumFrom (acc : double) (l : list double) : double :=
  match l with
  | [] => acc
  | x :: l' => sumFrom (add acc x) l'
  end.

Definition sumInOrder (l : list double) : double := sumFrom zero l.

End Spec.

(** Sample documents: one item of price [p] and quantity 1 at [rate] per
    cent, tax included or not; and a list of prices given in tenths. *)
Definition oneItem (p rate : Z) (inclusive : bool) : QuotationData :=
  mkData (mkDetails "Q-001" "2024-01-01" (ofZ rate))
    [mkItem 1 EmptyString EmptyString None (ofZ 1) (ofZ p)]
    zero inclusive.

Definition tenthsItem (i tenths : Z) : QuoteItem :=
  mkItem i EmptyString EmptyString None (ofZ 1) (div (ofZ tenths) (ofZ 10)).

Definition tenthsData (tenths : list Z) : QuotationData :=
  mkData (mkDetails "Q-001" "2024-01-01" (ofZ 5))
    (map (tenthsItem 1) tenths) zero false.

End Double.

(** * Properties *)

(** ** Arithmetic of the built-ins *)

Section MathFacts.

Lemma ceil_ge_1 (x : Q) : (0 < x)%Q -> 1 <= Math.ceil x.
Proof.
  intros Hx. unfold Math.ceil.
  pose proof (Qle_ceiling x) as Hc.
  assert (Hlt : (inject_Z 0 < inject_Z (Qceiling x))%Q)
    by (eapply Qlt_le_trans; [exact Hx | exact Hc]).
  rewrite <- Zlt_Qlt in Hlt. lia.
Qed.

Lemma ceil_unit_interval (x : Q) : (0 < x)%Q -> (x <= 1)%Q -> Math.ceil x = 1.
Proof.
  intros Hpos Hle.
  pose proof (ceil_ge_1 x Hpos) as Hge. unfold Math.ceil in *.
  pose proof (Qceiling_lt x) as Hc.
  assert (Hlt : (inject_Z (Qceiling x - 1) < inject_Z 1)%Q)
    by (eapply Qlt_le_trans; [exact Hc | exact Hle]).
  rewrite <- Zlt_Qlt in Hlt. lia.
Qed.

Lemma ceil_zero : Math.ceil 0 = 0.
Proof. reflexivity. Qed.

Lemma ceil_mono (x y : Q) : (x <= y)%Q -> Math.ceil x <= Math.ceil y.
Proof. apply Qceiling_resp_le. Qed.

Lemma ceil_nonpos (x : Q) : (x <= 0)%Q -> Math.ceil x <= 0.
Proof. intros Hx. apply (ceil_mono x 0 Hx). Qed.

(** [Math.round] returns a nearest integer: the argument lies in the
    half-open unit interval centred on the result. *)
Lemma round_nearest (x : Q) :
  (inject_Z (Math.round x) - (1 # 2) <= x)%Q /\
  (x < inject_Z (Math.round x) + (1 # 2))%Q.
Proof.
  unfold Math.round.
  pose proof (Qfloor_le (x + (1 # 2))) as Hlo.
  pose proof (Qlt_floor (x + (1 # 2))) as Hhi.
  rewrite inject_Z_plus in Hhi. change (inject_Z 1) with 1%Q in Hhi.
  split; lra.
Qed.

(** The result of [Math.round] is the only integer with that property. *)
Lemma round_unique (x : Q) (r : Z) :
  (inject_Z r - (1 # 2) <= x)%Q -> (x < inject_Z r + (1 # 2))%Q ->
  Math.round x = r.
Proof.
  intros Hlo Hhi. destruct (round_nearest x) as [Rlo Rhi].
  assert (H1 : (inject_Z r < inject_Z (Math.round x + 1))%Q)
    by (rewrite inject_Z_plus; change (inject_Z 1) with 1%Q; lra).
  assert (H2 : (inject_Z (Math.round x) < inject_Z (r + 1))%Q)
    by (rewrite inject_Z_plus; change (inject_Z 1) with 1%Q; lra).
  rewrite <- Zlt_Qlt in H1, H2. lia.
Qed.

End MathFacts.

(** ** Splitting a text into explicit lines *)

Section SplitFacts.

Variable sep : ascii.

Lemma split_nonempty (t : string) : split sep t <> [].
Proof.
  destruct t as [|c t]; simpl; [discriminate|].
  destruct (Ascii.eqb c sep); [discriminate|].
  destruct (split sep t); discriminate.
Qed.

(** Putting the separators back gives the text again. *)
Lemma join_cons2 (a b : string) (l : list string) :
  join sep (a :: b :: l) = String.append a (String sep (join sep (b :: l))).
Proof. reflexivity. Qed.

Lemma join_split (t : string) : join sep (split sep t) = t.
Proof.
  induction t as [|c t IH]; [reflexivity|].
  pose proof (split_nonempty t) as Hne.
  cbn [split]. destruct (Ascii.eqb_spec c sep) as [->|Hc].
  - destruct (split sep t) as [|seg segs]; [contradiction|].
    rewrite join_cons2, IH. reflexivity.
  - destruct (split sep t) as [|seg segs]; [contradiction|].
    destruct segs as [|seg' segs].
    + cbn [join] in *. now rewrite IH.
    + rewrite join_cons2 in *. cbn [String.append]. now rewrite IH.
Qed.

(** A text with [k] separators has [k + 1] segments. *)
Lemma length_split (t : string) :
  length (split sep t) = S (occurrences sep t).
Proof.
  induction t as [|c t IH]; simpl; [reflexivity|].
  destruct (Ascii.eqb c sep); simpl; [now rewrite IH|].
  pose proof (split_nonempty t) as Hne.
  destruct (split sep t); [contradiction|]. simpl in *. lia.
Qed.

End SplitFacts.

Lemma split_noLineBreak (t : string) :
  noLineBreak t = true -> split newline t = [t].
Proof.
  induction t as [|c t IH]; simpl; [reflexivity|].
  intros H. apply andb_prop in H as [Hc Ht].
  apply negb_true_iff in Hc. rewrite Hc, (IH Ht). reflexivity.
Qed.

(** ** The line estimate *)

Section CountLines.

Lemma len_nonneg (s : string) : (0 <= len s)%Q.
Proof.
  unfold len. change 0%Q with (inject_Z 0). rewrite <- Zle_Qle. lia.
Qed.

Lemma len_empty : len EmptyString = 0%Q.
Proof. reflexivity. Qed.

Lemma len_String_ge_1 (c : ascii) (s : string) : (1 <= len (String c s))%Q.
Proof.
  unfold len. change 1%Q with (inject_Z 1). rewrite <- Zle_Qle.
  simpl String.length. lia.
Qed.

Lemma len_mono (s t : string) :
  (String.length s <= String.length t)%nat -> (len s <= len t)%Q.
Proof. intros H. unfold len. rewrite <- Zle_Qle. lia. Qed.

(** The accumulation in the [forEach] callback is a sum over the list. *)
Lemma forEach_sum {A : Type} (g : A -> Z) (l : list A) (a : Z) :
  forEach l (fun acc x => acc + g x) a = a + Spec.sumZ (map g l).
Proof.
  unfold forEach. revert a.
  induction l as [|x l IH]; intros a; simpl; [lia|].
  rewrite IH. lia.
Qed.

Lemma sumZ_ge_1 (l : list Z) :
  l <> [] -> Forall (fun x => 1 <= x) l -> 1 <= Spec.sumZ l.
Proof.
  intros Hne Hall. destruct Hall as [|x l Hx Hl]; [contradiction|].
  simpl. clear Hne.
  assert (0 <= Spec.sumZ l) by (induction Hl; simpl; lia). lia.
Qed.

Variable cpl : Q.
Hypothesis cpl_ge_1 : (1 <= cpl)%Q.

(** On one segment the callback's [max (1, ceil (length / cpl))] and the
    specification's [ceil (max (1, length) / cpl)] agree. *)
Lemma callback_segmentLines (line : string) :
  Math.max 1 (Math.ceil (len line / cpl)) = Spec.segmentLines cpl line.
Proof.
  unfold Spec.segmentLines, Math.max.
  destruct line as [|c line].
  - rewrite len_empty.
    assert (E : (0 / cpl == 0)%Q) by (unfold Qdiv; ring).
    assert (D : (Qmax 1 0 / cpl == 1 / cpl)%Q).
    { assert (M : (Qmax 1 0 == 1)%Q) by (apply Q.max_l; lra).
      rewrite M. reflexivity. }
    assert (C0 : Math.ceil (0 / cpl) = 0)
      by (unfold Math.ceil; rewrite (Qceiling_comp _ _ E); reflexivity).
    assert (C1 : Math.ceil (Qmax 1 0 / cpl) = Math.ceil (1 / cpl))
      by (unfold Math.ceil; apply Qceiling_comp, D).
    rewrite C0, C1, ceil_unit_interval; [reflexivity| |].
    + apply Qlt_shift_div_l; lra.
    + apply Qle_shift_div_r; lra.
  - set (n := len (String c line)).
    assert (Hl : (1 <= n)%Q) by apply len_String_ge_1.
    assert (D : (Qmax 1 n / cpl == n / cpl)%Q).
    { assert (M : (Qmax 1 n == n)%Q) by (apply Q.max_r; exact Hl).
      rewrite M. reflexivity. }
    assert (C1 : Math.ceil (Qmax 1 n / cpl) = Math.ceil (n / cpl))
      by (unfold Math.ceil; apply Qceiling_comp, D).
    assert (1 <= Math.ceil (n / cpl)).
    { apply ceil_ge_1. apply Qlt_shift_div_l; lra. }
    rewrite C1. lia.
Qed.

Lemma segmentLines_ge_1 (line : string) : 1 <= Spec.segmentLines cpl line.
Proof. rewrite <- callback_segmentLines. unfold Math.max. lia. Qed.

Lemma countLines_estimateLines (text : option string) :
  countLines text cpl = Spec.estimateLines text cpl.
Proof.
  destruct text as [[|c t]|]; try reflexivity.
  unfold countLines, Spec.estimateLines. cbn [truthy negb default].
  rewrite forEach_sum. rewrite Z.add_0_l. f_equal.
  apply map_ext. intros line. apply callback_segmentLines.
Qed.

Lemma estimateLines_ge_1 (text : option string) :
  1 <= Spec.estimateLines text cpl.
Proof.
  destruct text as [[|c t]|]; cbn [Spec.estimateLines]; try lia.
  apply sumZ_ge_1.
  - intros E. apply map_eq_nil in E. exact (split_nonempty _ _ E).
  - apply Forall_map, Forall_forall. intros line _. apply segmentLines_ge_1.
Qed.

End CountLines.

Lemma countLines_nonempty (c : ascii) (t : string) (cpl : Q) :
  countLines (Some (String c t)) cpl
  = forEach (split newline (String c t))
      (fun totalLines line =>
         totalLines + Math.max 1 (Math.ceil (len line / cpl)))
      0.
Proof. reflexivity. Qed.

(** A text without line break is its own single segment, so its estimate is
    the callback applied once; this needs nothing of the divisor. *)
Lemma countLines_single_segment (t : string) (cpl : Q) :
  noLineBreak t = true ->
  countLines (Some t) cpl = Math.max 1 (Math.ceil (len t / cpl)).
Proof.
  intros Hnb. destruct t as [|c t].
  - assert (E : (len EmptyString / cpl == 0)%Q)
      by (rewrite len_empty; unfold Qdiv; ring).
    unfold Math.ceil. rewrite (Qceiling_comp _ _ E). reflexivity.
  - rewrite countLines_nonempty, (split_noLineBreak _ Hnb). reflexivity.
Qed.

Lemma quotient_mono (a b c : Q) :
  (0 < c)%Q -> (a <= b)%Q -> (a / c <= b / c)%Q.
Proof.
  intros Hc Hab. unfold Qdiv. apply Qmult_le_compat_r; [exact Hab|].
  apply Qlt_le_weak, Qinv_lt_0_compat, Hc.
Qed.

Lemma quotient_nonpos (a c : Q) :
  (0 <= a)%Q -> (c < 0)%Q -> (a / c <= 0)%Q.
Proof.
  intros Ha Hc.
  assert (E : (a / c == - (a / - c))%Q) by (field; lra).
  assert (0 <= a / - c)%Q by (apply Qle_shift_div_l; lra).
  lra.
Qed.

(** C6.  For a characters-per-line argument of at least 1, [countLines]
    returns an integer that is at least 1; it returns 1 for an absent and
    for an empty text; for a non-empty text it is the sum, over the segments
    between explicit line breaks, of [ceil (max (1, length segment) /
    charsPerLine)]; and a name of 50 characters without line break gets 3
    lines at 22 characters per line. *)
Theorem countLines_contract (text : option string) (charsPerLine : Q) :
  (1 <= charsPerLine)%Q ->
  1 <= countLines text charsPerLine
  /\ (text = None \/ text = Some EmptyString -> countLines text charsPerLine = 1)
  /\ (forall t : string, text = Some t -> t <> EmptyString ->
       countLines text charsPerLine
       = Spec.sumZ (map (fun segment =>
                           Math.ceil (Qmax 1 (len segment) / charsPerLine))
                        (split newline t)))
  /\ (forall nm : string, String.length nm = 50%nat -> noLineBreak nm = true ->
       countLines (Some nm) 22 = 3).
Proof.
  intros Hcpl. repeat split.
  - rewrite (countLines_estimateLines _ Hcpl). apply estimateLines_ge_1, Hcpl.
  - intros [-> | ->]; reflexivity.
  - intros t -> Hne. rewrite (countLines_estimateLines _ Hcpl).
    destruct t as [|c t]; [contradiction|]. reflexivity.
  - intros nm Hlen Hnb. rewrite (countLines_single_segment _ _ Hnb).
    unfold len. rewrite Hlen. reflexivity.
Qed.

Lemma countLines_contract_witness :
  (1 <= 22)%Q /\ 1 <= countLines (Some "stainless worktable"%string) 22.
Proof.
  split.
  - unfold Qle; simpl; lia.
  - apply (countLines_contract (Some "stainless worktable"%string) 22).
    unfold Qle; simpl; lia.
Defined.

(** C9, as stated, fails.  Text length alone does not order the estimates: two bare line breaks
    (length 2) are three lines, three letters (length 3) are one. *)
Lemma countLines_not_monotone_in_length :
  ~ (forall (s t : string) (cpl : Q),
       (1 <= cpl)%Q ->
       (String.length s <= String.length t)%nat ->
       countLines (Some s) cpl <= countLines (Some t) cpl).
Proof.
  intros H. specialize (H twoLineBreaks "abc"%string 22%Q).
  assert (C : (1 <= 22)%Q) by (unfold Qle; simpl; lia).
  assert (L : (String.length twoLineBreaks <= String.length "abc")%nat)
    by (simpl; lia).
  specialize (H C L). vm_compute in H. apply H. reflexivity.
Qed.

(** C9, amended.  For a fixed non-zero characters-per-line argument,
    [countLines] is non-decreasing in the text length among texts that
    contain no explicit line break. *)
Theorem countLines_monotone_single_segment (s t : string) (cpl : Q) :
  ~ (cpl == 0)%Q ->
  noLineBreak s = true -> noLineBreak t = true ->
  (String.length s <= String.length t)%nat ->
  countLines (Some s) cpl <= countLines (Some t) cpl.
Proof.
  intros Hcpl Hs Ht Hlen.
  rewrite (countLines_single_segment _ _ Hs), (countLines_single_segment _ _ Ht).
  unfold Math.max. apply len_mono in Hlen.
  destruct (Qlt_le_dec 0 cpl) as [Hpos | Hneg].
  - apply Z.max_le_compat_l, ceil_mono, quotient_mono; assumption.
  - assert (Hlt : (cpl < 0)%Q).
    { apply Qle_lteq in Hneg as [Hlt | Heq]; [exact Hlt | contradiction]. }
    pose proof (ceil_nonpos _ (quotient_nonpos _ _ (len_nonneg s) Hlt)).
    pose proof (ceil_nonpos _ (quotient_nonpos _ _ (len_nonneg t) Hlt)).
    lia.
Qed.

Lemma countLines_monotone_single_segment_witness :
  countLines (Some "ab"%string) 1 <= countLines (Some "abc"%string) 1.
Proof.
  apply (countLines_monotone_single_segment "ab" "abc" 1).
  - unfold Qeq; simpl; lia.
  - reflexivity.
  - reflexivity.
  - simpl; lia.
Defined.

(** ** The planner loop *)

Section PlanLoop.

(** The loop takes the inner arm for every item but the last. *)
Lemma forEach_from_planStep (n i : nat) (l : list QuoteItem)
    (x : QuoteItem) (st : PlanState) :
  (i + length l + 1 = n)%nat ->
  forEach_from i (l ++ [x]) (planStep n) st = lastItemStep (fill l st) x.
Proof.
  revert i st. induction l as [|y l IH]; intros i st Hn; simpl.
  - unfold planStep. simpl in Hn.
    replace (i =? n - 1)%nat with true
      by (symmetry; apply Nat.eqb_eq; lia).
    reflexivity.
  - unfold planStep at 2. simpl in Hn.
    replace (i =? n - 1)%nat with false
      by (symmetry; apply Nat.eqb_neq; lia).
    apply IH. lia.
Qed.

Lemma planLoop_nil : planLoop [] = initialPlan.
Proof. reflexivity. Qed.

Lemma planLoop_snoc (l : list QuoteItem) (x : QuoteItem) :
  planLoop (l ++ [x]) = lastItemStep (fill l initialPlan) x.
Proof.
  unfold planLoop, forEachi. apply forEach_from_planStep.
  rewrite length_app. simpl. lia.
Qed.

Lemma fill_snoc (l : list QuoteItem) (x : QuoteItem) (st : PlanState) :
  fill (l ++ [x]) st = innerItemStep (fill l st) x.
Proof. unfold fill. now rewrite fold_left_app. Qed.

(** Every list is empty or ends in a last item. *)
Lemma list_snoc_cases {A : Type} (l : list A) :
  l = [] \/ exists l' x, l = l' ++ [x].
Proof.
  induction l as [|x l' _] using rev_ind; [now left|].
  right. now exists l', x.
Qed.

End PlanLoop.

(** ** Order preservation *)

Section Flatten.

Lemma placed_innerItemStep (st : PlanState) (x : QuoteItem) :
  placed (innerItemStep st x) = placed st ++ [x].
Proof.
  unfold placed, innerItemStep.
  destruct (_ >? _); simpl.
  - rewrite concat_app. simpl. now rewrite app_nil_r.
  - now rewrite app_assoc.
Qed.

Lemma placed_lastItemStep (st : PlanState) (x : QuoteItem) :
  placed (lastItemStep st x) = placed st ++ [x].
Proof.
  unfold placed, lastItemStep.
  destruct (_ >? _); [destruct (_ <? _)|]; simpl.
  - rewrite concat_app. simpl. now rewrite !app_nil_r, app_assoc.
  - rewrite concat_app. simpl. now rewrite app_nil_r.
  - now rewrite app_assoc.
Qed.

Lemma placed_fill (l : list QuoteItem) (st : PlanState) :
  placed (fill l st) = placed st ++ l.
Proof.
  induction l as [|x l IH] using rev_ind.
  - simpl. now rewrite app_nil_r.
  - now rewrite fill_snoc, placed_innerItemStep, IH, app_assoc.
Qed.

Lemma concat_flush (st : PlanState) : concat (flush st) = placed st.
Proof.
  unfold flush, placed.
  destruct (currentPageItems st) as [|y cur] eqn:E; simpl.
  - destruct (length (resultPages st) =? 0)%nat.
    + rewrite concat_app. reflexivity.
    + now rewrite app_nil_r.
  - rewrite concat_app. simpl. now rewrite app_nil_r.
Qed.

Lemma placed_planLoop (l : list QuoteItem) : placed (planLoop l) = l.
Proof.
  destruct (list_snoc_cases l) as [-> | (l' & x & ->)]; [reflexivity|].
  now rewrite planLoop_snoc, placed_lastItemStep, placed_fill.
Qed.

End Flatten.

Lemma concat_pages (data : QuotationData) :
  concat (pages data) = items data.
Proof.
  unfold pages. rewrite concat_flush. apply placed_planLoop.
Qed.

(** C2.  Concatenating the item sequences of the planner's pages, in page
    order, gives back exactly the input item list: nothing is lost,
    duplicated or reordered. *)
Theorem pages_flatten (data : QuotationData) :
  concat (pages data) = items data.
Proof. exact (concat_pages data). Qed.

(** ** Row heights *)

Section Heights.

(** A row is the base height plus a whole number of extra lines. *)
Lemma getItemHeight_form (item : QuoteItem) :
  exists k : Z,
    0 <= k /\ getItemHeight item = ROW_BASE_HEIGHT + k * ROW_LINE_HEIGHT.
Proof.
  unfold getItemHeight, Math.max3.
  set (b := countLines _ 22 + _). set (c := countLines _ 15).
  exists (Z.max (Z.max b c) 1 - 1). split; [lia | reflexivity].
Qed.

Lemma getItemHeight_ge_base (item : QuoteItem) :
  ROW_BASE_HEIGHT <= getItemHeight item.
Proof.
  destruct (getItemHeight_form item) as (k & Hk & ->).
  unfold ROW_BASE_HEIGHT, ROW_LINE_HEIGHT. lia.
Qed.

Lemma getItemHeight_pos (item : QuoteItem) : 0 < getItemHeight item.
Proof.
  pose proof (getItemHeight_ge_base item). unfold ROW_BASE_HEIGHT in *. lia.
Qed.

(** No row is exactly as tall as what the first page leaves below its
    header: 620 is not 45 plus a multiple of 24. *)
Lemma getItemHeight_not_first_page_room (item : QuoteItem) :
  HEADER_HEIGHT + getItemHeight item <> limit.
Proof.
  destruct (getItemHeight_form item) as (k & Hk & ->).
  unfold HEADER_HEIGHT, ROW_BASE_HEIGHT, ROW_LINE_HEIGHT, limit,
    A4_CONTENT_HEIGHT, BOTTOM_SPACER. lia.
Qed.

End Heights.

(** ** Where empty pages can be *)

Section EmptyPages.

Lemma innerItemStep_extends (st : PlanState) (x : QuoteItem) :
  currentPageItems st <> [] ->
  exists more,
    resultPages (innerItemStep st x) = resultPages st ++ more
    /\ Forall nonempty more
    /\ currentPageItems (innerItemStep st x) <> [].
Proof.
  intros Hcur. unfold innerItemStep. destruct (_ >? _); simpl.
  - exists [currentPageItems st]. repeat split; [|discriminate].
    now constructor.
  - exists []. rewrite app_nil_r. repeat split; [constructor|].
    now destruct (currentPageItems st).
Qed.

Lemma fill_extends (l : list QuoteItem) (st : PlanState) :
  currentPageItems st <> [] ->
  exists more,
    resultPages (fill l st) = resultPages st ++ more
    /\ Forall nonempty more
    /\ currentPageItems (fill l st) <> [].
Proof.
  intros Hcur. induction l as [|x l IH] using rev_ind.
  - exists []. simpl. rewrite app_nil_r. repeat split; [constructor|assumption].
  - destruct IH as (more & Hrp & Hall & Hne). rewrite fill_snoc.
    destruct (innerItemStep_extends (fill l st) x Hne) as (more' & Hrp' & Hall' & Hne').
    exists (more ++ more'). rewrite Hrp', Hrp, app_assoc.
    repeat split; [|assumption]. apply Forall_app; now split.
Qed.

Lemma flush_lastItemStep_extends (st : PlanState) (x : QuoteItem) :
  currentPageItems st <> [] ->
  exists more,
    flush (lastItemStep st x) = resultPages st ++ more
    /\ Forall nonempty more
    /\ more <> [].
Proof.
  intros Hcur. unfold lastItemStep.
  destruct (_ >? _); [destruct (_ <? _)|]; unfold flush; simpl.
  - rewrite length_app. simpl.
    replace (length (resultPages st) + 1 =? 0)%nat with false
      by (symmetry; apply Nat.eqb_neq; lia).
    exists [currentPageItems st ++ [x]]. repeat split; [|discriminate].
    constructor; [|constructor]. now destruct (currentPageItems st).
  - exists [currentPageItems st; [x]]. rewrite <- app_assoc.
    repeat split; [|discriminate].
    constructor; [assumption|]. constructor; [discriminate|constructor].
  - assert (Hlen : (0 <? length (currentPageItems st ++ [x]))%nat = true)
      by (apply Nat.ltb_lt; rewrite length_app; simpl; lia).
    rewrite Hlen.
    exists [currentPageItems st ++ [x]]. repeat split; [|discriminate].
    constructor; [|constructor]. now destruct (currentPageItems st).
Qed.

(** The three shapes of the planner's result. *)
Lemma pages_nil (data : QuotationData) :
  items data = [] -> pages data = [[]].
Proof. unfold pages. now intros ->. Qed.

Lemma pages_single (data : QuotationData) (x : QuoteItem) :
  items data = [x] ->
  pages data =
    if (HEADER_HEIGHT + getItemHeight x + FOOTER_HEIGHT >? A4_CONTENT_HEIGHT)
       && negb (HEADER_HEIGHT + getItemHeight x <? limit)
    then [[]; [x]] else [[x]].
Proof.
  unfold pages. intros ->. change [x] with ([] ++ [x]).
  rewrite planLoop_snoc. unfold lastItemStep, fill. simpl.
  destruct (_ >? _); [destruct (_ <? _)|]; reflexivity.
Qed.

Lemma pages_several (data : QuotationData) (x z : QuoteItem)
    (l : list QuoteItem) :
  items data = x :: l ++ [z] ->
  exists more,
    pages data =
      (if HEADER_HEIGHT + getItemHeight x >? limit then [[]] else []) ++ more
    /\ Forall nonempty more
    /\ more <> [].
Proof.
  unfold pages. intros ->. rewrite app_comm_cons, planLoop_snoc.
  change (fill (x :: l) initialPlan) with (fill l (innerItemStep initialPlan x)).
  set (st1 := innerItemStep initialPlan x).
  assert (H1 : currentPageItems st1 <> []
               /\ resultPages st1 =
                    if HEADER_HEIGHT + getItemHeight x >? limit then [[]] else []).
  { unfold st1, innerItemStep. simpl.
    destruct (_ >? _); simpl; split; (discriminate || reflexivity). }
  destruct H1 as [Hcur Hrp].
  destruct (fill_extends l st1 Hcur) as (more & Hrp' & Hall & Hne).
  destruct (flush_lastItemStep_extends (fill l st1) z Hne)
    as (more' & Hfl & Hall' & Hne').
  exists (more ++ more'). rewrite Hfl, Hrp', Hrp, app_assoc.
  repeat split.
  - apply Forall_app; now split.
  - intros E. apply app_eq_nil in E as [_ E]. contradiction.
Qed.

Lemma nonempty_lookup (more : list (list QuoteItem)) (p : nat) :
  Forall nonempty more -> more !! p = Some [] -> False.
Proof.
  intros Hall Hp. exact (Forall_lookup_1 _ _ _ _ Hall Hp eq_refl).
Qed.

(** A list has no item, one item, or a first and a last item. *)
Lemma list_ends_cases {A : Type} (l : list A) :
  l = [] \/ (exists x, l = [x]) \/ (exists x m z, l = x :: m ++ [z]).
Proof.
  destruct l as [|x l]; [now left|]. right.
  destruct (list_snoc_cases l) as [-> | (m & z & ->)].
  - left. now exists x.
  - right. now exists x, m, z.
Qed.

End EmptyPages.

(** C10.  Every page other than the first holds at least one item.  The
    first page is empty exactly when the item list is empty or the first
    item does not fit below the first page's header, in which case an
    item-free first page precedes it. *)
Theorem empty_page_only_first (data : QuotationData) :
  (forall (p : nat) (pg : list QuoteItem),
     pages data !! p = Some pg -> pg = [] -> p = 0%nat)
  /\ (pages data !! 0%nat = Some [] <->
      items data = []
      \/ exists x rest, items data = x :: rest
                        /\ limit < HEADER_HEIGHT + getItemHeight x).
Proof.
  destruct (list_ends_cases (items data))
    as [Hnil | [(x & Hone) | (x & m & z & Hmore)]].
  - rewrite (pages_nil _ Hnil). split.
    + intros p pg Hp _. apply lookup_lt_Some in Hp. simpl in Hp. lia.
    + split; [now left | reflexivity].
  - rewrite (pages_single _ _ Hone).
    pose proof (getItemHeight_not_first_page_room x) as Hroom.
    destruct (_ >? _) eqn:Hfoot; [destruct (_ <? _) eqn:Hfit|]; simpl.
    + split.
      * intros [|p] pg Hp ->; [reflexivity | destruct p; discriminate].
      * split; [discriminate|].
        intros [Hnil | (x' & rest & Hx & Hgt)]; [congruence|].
        rewrite Hone in Hx. injection Hx as <- _.
        apply Z.ltb_lt in Hfit. lia.
    + split.
      * intros [|[|p]] pg Hp ->; [reflexivity | discriminate | discriminate].
      * split; [intros _ | reflexivity]. right. exists x, [].
        split; [assumption|]. apply Z.ltb_ge in Hfit. lia.
    + split.
      * intros [|p] pg Hp ->; [reflexivity | destruct p; discriminate].
      * split; [discriminate|].
        intros [Hnil | (x' & rest & Hx & Hgt)]; [congruence|].
        rewrite Hone in Hx. injection Hx as <- _.
        rewrite Z.gtb_ltb in Hfoot. apply Z.ltb_ge in Hfoot.
        unfold limit, A4_CONTENT_HEIGHT, BOTTOM_SPACER, FOOTER_HEIGHT in *. lia.
  - destruct (pages_several _ _ _ _ Hmore) as (more & -> & Hall & Hne).
    destruct (_ >? _) eqn:Hover; simpl.
    + split.
      * intros [|p] pg Hp ->; [reflexivity|]. simpl in Hp.
        destruct (nonempty_lookup _ _ Hall Hp).
      * split; [intros _ | reflexivity]. right. exists x, (m ++ [z]).
        split; [assumption|]. rewrite Z.gtb_ltb in Hover.
        now apply Z.ltb_lt in Hover.
    + split.
      * intros p pg Hp ->. destruct (nonempty_lookup _ _ Hall Hp).
      * split.
        -- intros Hp. destruct (nonempty_lookup _ _ Hall Hp).
        -- intros [Hnil | (x' & rest & Hx & Hgt)]; [congruence|].
           rewrite Hmore in Hx. injection Hx as <- _.
           rewrite Z.gtb_ltb in Hover. apply Z.ltb_ge in Hover. lia.
Qed.

(** ** Items taller than the limit *)

Section TallItems.

Lemma tallAlone_short (pg : list QuoteItem) :
  (forall it : QuoteItem, it ∈ pg -> getItemHeight it <= limit) ->
  tallAlone pg.
Proof. intros Hshort it Hin Htall. specialize (Hshort it Hin). lia. Qed.

Lemma tallAlone_singleton (x : QuoteItem) : tallAlone [x].
Proof.
  intros it Hin _. apply list_elem_of_singleton in Hin. now subst.
Qed.

Lemma tallInv_current (st : PlanState) :
  tallInv st -> tallAlone (currentPageItems st).
Proof.
  intros (_ & _ & [Hshort | (it & -> & _)]).
  - now apply tallAlone_short.
  - apply tallAlone_singleton.
Qed.

Lemma tallInv_initial : tallInv initialPlan.
Proof.
  split; [apply Forall_nil_2 | split; [reflexivity|]].
  left. intros it Hin. now apply elem_of_nil in Hin.
Qed.

(** Closing the page and opening a new one with [x]. *)
Lemma tallInv_close (st : PlanState) (x : QuoteItem) (k : nat) :
  tallInv st ->
  tallInv (mkPlan (resultPages st ++ [currentPageItems st]) [x]
             (PAGE_2_HEADER_HEIGHT + getItemHeight x) k).
Proof.
  intros Hinv. pose proof (tallInv_current _ Hinv) as Hcur.
  destruct Hinv as (Hrp & _ & _).
  pose proof (getItemHeight_pos x) as Hpos.
  split; [|split]; simpl.
  - apply Forall_app. split; [assumption|]. now constructor.
  - unfold PAGE_2_HEADER_HEIGHT. lia.
  - destruct (Z_le_gt_dec (getItemHeight x) limit) as [Hle | Hgt].
    + left. intros it Hin. apply list_elem_of_singleton in Hin. now subst.
    + right. exists x. split; [reflexivity|]. unfold PAGE_2_HEADER_HEIGHT. lia.
Qed.

(** An item that is added below the limit joins a page of short items and
    is short itself. *)
Lemma short_after_append (st : PlanState) (x : QuoteItem) :
  tallInv st ->
  currentHeight st + getItemHeight x <= limit ->
  forall it : QuoteItem,
    it ∈ currentPageItems st ++ [x] -> getItemHeight it <= limit.
Proof.
  intros (_ & Hpos & Hcur) Hfit it Hin.
  pose proof (getItemHeight_pos x) as Hx.
  destruct Hcur as [Hshort | (y & _ & Hover)]; [|lia].
  apply elem_of_app in Hin as [Hin | Hin]; [now apply Hshort|].
  apply list_elem_of_singleton in Hin. subst. lia.
Qed.

Lemma tallInv_append (st : PlanState) (x : QuoteItem) (k : nat) :
  tallInv st ->
  currentHeight st + getItemHeight x <= limit ->
  tallInv (mkPlan (resultPages st) (currentPageItems st ++ [x])
             (currentHeight st + getItemHeight x) k).
Proof.
  intros Hinv Hfit. pose proof (short_after_append _ _ Hinv Hfit) as Hshort.
  destruct Hinv as (Hrp & Hpos & _). pose proof (getItemHeight_pos x).
  split; [|split]; simpl; [assumption | lia | now left].
Qed.

Lemma tallInv_innerItemStep (st : PlanState) (x : QuoteItem) :
  tallInv st -> tallInv (innerItemStep st x).
Proof.
  intros Hinv. unfold innerItemStep. destruct (_ >? _) eqn:Hover.
  - now apply tallInv_close.
  - apply tallInv_append; [assumption|].
    rewrite Z.gtb_ltb in Hover. apply Z.ltb_ge in Hover. exact Hover.
Qed.

Lemma tallInv_fill (l : list QuoteItem) (st : PlanState) :
  tallInv st -> tallInv (fill l st).
Proof.
  intros Hinv. induction l as [|x l IH] using rev_ind; [assumption|].
  rewrite fill_snoc. now apply tallInv_innerItemStep.
Qed.

Lemma tallInv_lastItemStep (st : PlanState) (x : QuoteItem) :
  tallInv st -> tallInv (lastItemStep st x).
Proof.
  intros Hinv. unfold lastItemStep.
  destruct (_ >? _) eqn:Hfoot; [destruct (_ <? _) eqn:Hfit|].
  - apply Z.ltb_lt in Hfit.
    assert (Hle : currentHeight st + getItemHeight x <= limit) by lia.
    pose proof (short_after_append _ _ Hinv Hle) as Hshort.
    destruct Hinv as (Hrp & _ & _).
    split; [|split]; simpl.
    + apply Forall_app. split; [assumption|].
      constructor; [now apply tallAlone_short | constructor].
    + reflexivity.
    + left. intros it Hin. now apply elem_of_nil in Hin.
  - now apply tallInv_close.
  - apply tallInv_append; [assumption|].
    rewrite Z.gtb_ltb in Hfoot. apply Z.ltb_ge in Hfoot.
    unfold limit, A4_CONTENT_HEIGHT, BOTTOM_SPACER, FOOTER_HEIGHT in *. lia.
Qed.

Lemma tallInv_planLoop (l : list QuoteItem) : tallInv (planLoop l).
Proof.
  destruct (list_snoc_cases l) as [-> | (l' & x & ->)].
  - apply tallInv_initial.
  - rewrite planLoop_snoc.
    apply tallInv_lastItemStep, tallInv_fill, tallInv_initial.
Qed.

Lemma tallAlone_flush (st : PlanState) :
  tallInv st -> Forall tallAlone (flush st).
Proof.
  intros Hinv. pose proof (tallInv_current _ Hinv) as Hcur.
  destruct Hinv as (Hrp & _ & _). unfold flush.
  destruct (0 <? _)%nat; [|destruct (_ =? _)%nat].
  - apply Forall_app. split; [assumption|]. now constructor.
  - apply Forall_app. split; [assumption|]. constructor; [|constructor].
    intros it Hin. now apply elem_of_nil in Hin.
  - assumption.
Qed.

Lemma flush_nonempty (st : PlanState) : (0 < length (flush st))%nat.
Proof.
  unfold flush.
  destruct (0 <? _)%nat; [|destruct (_ =? _)%nat eqn:E].
  - rewrite length_app. simpl. lia.
  - rewrite length_app. simpl. lia.
  - apply Nat.eqb_neq in E. lia.
Qed.

End TallItems.


(** ** Row numbers across pages *)

Section RowNumbers.

Lemma countBefore_take (pgs : list (list QuoteItem)) (k i count : nat) :
  (i + k <= length pgs)%nat ->
  countBefore pgs i k count
  = Some (count + length (concat (take k (drop i pgs))))%nat.
Proof.
  revert i count. induction k as [|k IH]; intros i count Hlen; simpl.
  - f_equal. lia.
  - destruct (pgs !! i) as [pg|] eqn:Hpg.
    + rewrite IH by lia. rewrite (drop_S _ _ _ Hpg). simpl.
      rewrite length_app. f_equal. lia.
    + apply lookup_ge_None in Hpg. lia.
Qed.

Lemma getGlobalIndex_closed (pgs : list (list QuoteItem)) (p i : nat) :
  (p <= length pgs)%nat ->
  getGlobalIndex pgs p i = Some (length (concat (take p pgs)) + i + 1)%nat.
Proof.
  intros Hp. unfold getGlobalIndex.
  rewrite countBefore_take by lia. now rewrite drop_0.
Qed.

(** A slot of a page is a position of the concatenation, and conversely. *)
Lemma concat_lookup_slot (pgs : list (list QuoteItem)) (p i : nat)
    (pg : list QuoteItem) (it : QuoteItem) :
  pgs !! p = Some pg -> pg !! i = Some it ->
  concat pgs !! (length (concat (take p pgs)) + i)%nat = Some it.
Proof.
  intros Hp Hi.
  assert (E : pgs = take p pgs ++ pg :: drop (S p) pgs)
    by (symmetry; now apply take_drop_middle).
  set (before := concat (take p pgs)).
  assert (C : concat pgs = before ++ pg ++ concat (drop (S p) pgs))
    by (rewrite E at 1; now rewrite concat_app).
  rewrite C, lookup_app_r by lia.
  replace (length before + i - length before)%nat with i by lia.
  rewrite lookup_app_l by (eapply lookup_lt_Some; eassumption).
  exact Hi.
Qed.

Lemma concat_lookup_inv (pgs : list (list QuoteItem)) (j : nat) (it : QuoteItem) :
  concat pgs !! j = Some it ->
  exists p i pg,
    pgs !! p = Some pg /\ pg !! i = Some it
    /\ j = (length (concat (take p pgs)) + i)%nat.
Proof.
  revert j. induction pgs as [|pg0 pgs IH]; intros j Hj; simpl in Hj.
  - discriminate.
  - apply lookup_app_Some in Hj as [Hj | [Hge Hj]].
    + exists 0%nat, j, pg0. now repeat split.
    + destruct (IH _ Hj) as (p & i & pg & Hp & Hi & Heq).
      exists (S p), i, pg. repeat split; [assumption | assumption |].
      simpl. rewrite length_app. lia.
Qed.

End RowNumbers.

(** C7.  For a slot [i] of page [p] of the planner's result,
    [getGlobalIndex] returns the 1-based position in the item list of the
    item in that slot; every position from 1 to the number of items is the
    number of some slot; and when eight items are split into pages of five
    and three the numbers are 1 to 5 on the first page and 6 to 8 on the
    second. *)
Theorem getGlobalIndex_position (data : QuotationData) :
  (forall (p i : nat) (pg : list QuoteItem) (it : QuoteItem),
     pages data !! p = Some pg -> pg !! i = Some it ->
     exists n : nat,
       getGlobalIndex (pages data) p i = Some n
       /\ (1 <= n)%nat
       /\ items data !! (n - 1)%nat = Some it)
  /\ (forall n : nat,
       (1 <= n <= length (items data))%nat ->
       exists (p i : nat) (pg : list QuoteItem),
         pages data !! p = Some pg /\ (i < length pg)%nat
         /\ getGlobalIndex (pages data) p i = Some n)
  /\ (forall pg1 pg2 : list QuoteItem,
       length pg1 = 5%nat -> length pg2 = 3%nat ->
       map (getGlobalIndex [pg1; pg2] 0) [0; 1; 2; 3; 4]%nat
       = map Some [1; 2; 3; 4; 5]%nat
       /\ map (getGlobalIndex [pg1; pg2] 1) [0; 1; 2]%nat
          = map Some [6; 7; 8]%nat).
Proof.
  split; [|split].
  - intros p i pg it Hp Hi.
    exists (length (concat (take p (pages data))) + i + 1)%nat.
    split; [|split].
    + apply getGlobalIndex_closed.
      apply lookup_lt_Some in Hp. lia.
    + lia.
    + rewrite <- (concat_pages data) at 1.
      replace (length (concat (take p (pages data))) + i + 1 - 1)%nat
        with (length (concat (take p (pages data))) + i)%nat by lia.
      eapply concat_lookup_slot; eassumption.
  - intros n [Hlo Hhi].
    destruct (lookup_lt_is_Some_2 (items data) (n - 1)%nat) as [it Hit]; [lia|].
    rewrite <- (concat_pages data) in Hit.
    destruct (concat_lookup_inv _ _ _ Hit) as (p & i & pg & Hp & Hi & Heq).
    exists p, i, pg. split; [assumption|]. split.
    + eapply lookup_lt_Some; eassumption.
    + rewrite getGlobalIndex_closed by (apply lookup_lt_Some in Hp; lia).
      f_equal. lia.
  - intros pg1 pg2 H1 H2. unfold getGlobalIndex. simpl.
    rewrite H1. split; reflexivity.
Qed.

Lemma getGlobalIndex_position_witness :
  exists n : nat,
    getGlobalIndex (pages fiveThreeData) 1 0 = Some n
    /\ (1 <= n)%nat
    /\ items fiveThreeData !! (n - 1)%nat = Some (blankItem 6).
Proof.
  destruct (getGlobalIndex_position fiveThreeData) as [Hslot _].
  apply (Hslot 1%nat 0%nat (map blankItem [6; 7; 8]) (blankItem 6)).
  - vm_compute. reflexivity.
  - reflexivity.
Defined.

(** C8.  The planner returns a page list for every item list, tall items
    included: the result has at least one page; every item of the list is
    on a page, in the slot that corresponds to its position; and every item
    of the list that is taller than [limit] is the only item of its page. *)
Theorem pages_total (data : QuotationData) :
  (exists pg rest, pages data = pg :: rest)
  /\ (forall (k : nat) (item : QuoteItem),
       items data !! k = Some item ->
       exists (p i : nat) (pg : list QuoteItem),
         pages data !! p = Some pg /\ pg !! i = Some item
         /\ (length (concat (take p (pages data))) + i)%nat = k)
  /\ (forall (k : nat) (item : QuoteItem),
       items data !! k = Some item ->
       limit < getItemHeight item ->
       exists p : nat,
         pages data !! p = Some [item]
         /\ length (concat (take p (pages data))) = k)
  /\ (forall (p : nat) (pg : list QuoteItem) (it : QuoteItem),
       pages data !! p = Some pg -> it ∈ pg ->
       limit < getItemHeight it -> pg = [it]).
Proof.
  assert (Hplaced : forall (k : nat) (item : QuoteItem),
             items data !! k = Some item ->
             exists (p i : nat) (pg : list QuoteItem),
               pages data !! p = Some pg /\ pg !! i = Some item
               /\ (length (concat (take p (pages data))) + i)%nat = k).
  { intros k item Hk. rewrite <- (concat_pages data) in Hk.
    destruct (concat_lookup_inv _ _ _ Hk) as (p & i & pg & Hp & Hi & ->).
    now exists p, i, pg. }
  assert (Halone : forall (p : nat) (pg : list QuoteItem) (it : QuoteItem),
             pages data !! p = Some pg -> it ∈ pg ->
             limit < getItemHeight it -> pg = [it]).
  { intros p pg it Hp Hin Htall.
    pose proof (tallAlone_flush _ (tallInv_planLoop (items data))) as Hall.
    exact (Forall_lookup_1 _ _ _ _ Hall Hp it Hin Htall). }
  split; [|split; [exact Hplaced | split; [|exact Halone]]].
  - pose proof (flush_nonempty (planLoop (items data))) as Hlen.
    fold (pages data) in Hlen.
    destruct (pages data) as [|pg rest]; [simpl in Hlen; lia|].
    now exists pg, rest.
  - intros k item Hk Htall.
    destruct (Hplaced k item Hk) as (p & i & pg & Hp & Hi & Hpos).
    pose proof (Halone p pg item Hp (list_elem_of_lookup_2 _ _ _ Hi) Htall) as ->.
    apply list_lookup_singleton_Some in Hi as [-> _].
    exists p. split; [exact Hp | lia].
Qed.

Lemma pages_total_witness :
  items tallItemData !! 1%nat = Some tallItem
  /\ limit < getItemHeight tallItem
  /\ exists p : nat,
       pages tallItemData !! p = Some [tallItem]
       /\ length (concat (take p (pages tallItemData))) = 1%nat.
Proof.
  assert (Hk : items tallItemData !! 1%nat = Some tallItem) by reflexivity.
  assert (Htall : limit < getItemHeight tallItem) by (vm_compute; reflexivity).
  split; [exact Hk|]. split; [exact Htall|].
  destruct (pages_total tallItemData) as (_ & _ & Hsole & _).
  exact (Hsole 1%nat tallItem Hk Htall).
Defined.

Lemma empty_page_only_first_witness :
  pages tallOnlyData !! 0%nat = Some []
  /\ limit < HEADER_HEIGHT + getItemHeight tallItem.
Proof.
  destruct (empty_page_only_first tallOnlyData) as [_ [Hto _]].
  assert (Hp : pages tallOnlyData !! 0%nat = Some [])
    by (vm_compute; reflexivity).
  split; [exact Hp|].
  destruct (Hto Hp) as [Hnil | (x & rest & Hx & Hgt)]; [discriminate|].
  injection Hx as <- _. exact Hgt.
Defined.

(** ** The forced overflow of the last item *)

(** Whenever the last item takes the forced-overflow arm, the page that
    receives it is the last page of the result. *)
Lemma flush_forced_overflow (st : PlanState) (x : QuoteItem) :
  A4_CONTENT_HEIGHT < currentHeight st + getItemHeight x + FOOTER_HEIGHT ->
  currentHeight st + getItemHeight x < limit ->
  flush (lastItemStep st x) = resultPages st ++ [currentPageItems st ++ [x]].
Proof.
  intros Hfoot Hfit. unfold lastItemStep.
  replace (_ >? _) with true by (symmetry; rewrite Z.gtb_ltb; now apply Z.ltb_lt).
  replace (_ <? _) with true by (symmetry; now apply Z.ltb_lt).
  unfold flush. simpl. rewrite length_app. simpl.
  replace (length (resultPages st) + 1 =? 0)%nat with false
    by (symmetry; apply Nat.eqb_neq; lia).
  reflexivity.
Qed.

(** The same for a whole document whose last item takes that arm: the
    result ends with the page of the last item, not with an item-free page. *)
Lemma pages_forced_overflow (data : QuotationData) (pre : list QuoteItem)
    (x : QuoteItem) :
  items data = pre ++ [x] ->
  A4_CONTENT_HEIGHT
  < currentHeight (fill pre initialPlan) + getItemHeight x + FOOTER_HEIGHT ->
  currentHeight (fill pre initialPlan) + getItemHeight x < limit ->
  pages data
  = resultPages (fill pre initialPlan)
    ++ [currentPageItems (fill pre initialPlan) ++ [x]]
  /\ endsWithFooterOnlyPage (pages data) = false.
Proof.
  intros Hitems Hfoot Hfit. unfold pages.
  rewrite Hitems, planLoop_snoc, (flush_forced_overflow _ _ Hfoot Hfit).
  split; [reflexivity|].
  unfold endsWithFooterOnlyPage. rewrite last_snoc.
  now destruct (currentPageItems (fill pre initialPlan)).
Qed.

(** C1, on the code.  With eight blank items the loop reaches the last item
    at height 695 on the first page; the item is 45 high, so it takes the
    forced-overflow arm (695 + 45 + 320 > 1050 and 695 + 45 < 1000).  The
    result is the single page of all eight items: no item-free page follows
    it. *)
Theorem forced_overflow_single_page :
  planLoop eightBlankItems
  = lastItemStep (fill (map blankItem [1; 2; 3; 4; 5; 6; 7]) initialPlan)
      (blankItem 8)
  /\ currentHeight (fill (map blankItem [1; 2; 3; 4; 5; 6; 7]) initialPlan) = 695
  /\ getItemHeight (blankItem 8) = 45
  /\ (695 + 45 + FOOTER_HEIGHT >? A4_CONTENT_HEIGHT) = true
  /\ (695 + 45 <? limit) = true
  /\ pages eightBlankData = [eightBlankItems]
  /\ endsWithFooterOnlyPage (pages eightBlankData) = false.
Proof.
  split; [|split; [|split; [|split; [|split; [|split]]]]].
  - exact (planLoop_snoc (map blankItem [1; 2; 3; 4; 5; 6; 7]) (blankItem 8)).
  - vm_compute. reflexivity.
  - vm_compute. reflexivity.
  - reflexivity.
  - reflexivity.
  - vm_compute. reflexivity.
  - vm_compute. reflexivity.
Qed.

(** ** The description in the row height *)

(** The row height is the specification's whenever the description is not
    the empty string. *)
Lemma getItemHeight_rowHeight (item : QuoteItem) :
  description item <> Some EmptyString ->
  getItemHeight item = Spec.rowHeight item.
Proof.
  intros Hdesc. unfold getItemHeight, Spec.rowHeight, Spec.nameBlockLines, Math.max3.
  assert (H22 : (1 <= 22)%Q) by (unfold Qle; simpl; lia).
  assert (H35 : (1 <= 35)%Q) by (unfold Qle; simpl; lia).
  assert (H15 : (1 <= 15)%Q) by (unfold Qle; simpl; lia).
  rewrite (countLines_estimateLines 22 H22), (countLines_estimateLines 15 H15).
  destruct (description item) as [[|c d]|]; [contradiction | |reflexivity].
  rewrite (countLines_estimateLines 35 H35). reflexivity.
Qed.

(** C5, on the code.  For an item with a present but empty description the
    truthiness test drops the description's line: the row is 45 high, where
    name lines plus description lines give two lines and a height of 69. *)
Theorem getItemHeight_empty_description :
  description emptyDescriptionItem = Some EmptyString
  /\ getItemHeight emptyDescriptionItem = 45
  /\ Spec.nameBlockLines emptyDescriptionItem = 2
  /\ Spec.rowHeight emptyDescriptionItem = 69.
Proof. repeat split. Qed.

(** ** Totals *)

Section Totals.

Variable data : QuotationData.

Lemma forEach_sumQ {A : Type} (g : A -> Q) (l : list A) (a : Q) :
  (forEach l (fun acc x => acc + g x) a == a + Spec.sumQ (map g l))%Q.
Proof.
  unfold forEach. revert a.
  induction l as [|x l IH]; intros a; simpl; [ring|].
  rewrite IH. ring.
Qed.

(** The accumulated subtotal is the sum of the row amounts. *)
Lemma calculatedSubtotal_sum :
  (calculatedSubtotal data == Spec.subtotal data)%Q.
Proof.
  unfold calculatedSubtotal, Spec.subtotal.
  rewrite (forEach_sumQ
             (fun item => getPreTaxUnitPrice data (price item) * quantity item)%Q).
  unfold rowAmount. ring.
Qed.

(** [discount || 0] is the discount. *)
Lemma discountOrZero_discount : (discountOrZero data == discount data)%Q.
Proof.
  unfold discountOrZero. destruct (Qeq_bool (discount data) 0) eqn:E.
  - apply Qeq_bool_eq in E. now symmetry.
  - reflexivity.
Qed.

Lemma taxableAmount_max :
  (taxableAmount data == Qmax 0 (Spec.subtotal data - discount data))%Q.
Proof.
  unfold taxableAmount, Math.maxQ.
  now rewrite calculatedSubtotal_sum, discountOrZero_discount.
Qed.

End Totals.

(** ** Rounding of the pre-tax unit price *)

(** On a non-negative argument [Math.round] and rounding half away from
    zero agree. *)
Lemma round_nonneg_half_away (x : Q) :
  (0 <= x)%Q -> Math.round x = Spec.roundHalfAwayFromZero x.
Proof.
  intros Hx. unfold Spec.roundHalfAwayFromZero.
  apply Qle_bool_iff in Hx. now rewrite Hx.
Qed.

(** A tie goes to the larger neighbour, whatever its sign. *)
Lemma round_tie (x : Q) (k : Z) :
  (x == inject_Z k + (1 # 2))%Q -> Math.round x = k + 1.
Proof.
  intros Hx. apply round_unique.
  - rewrite inject_Z_plus. change (inject_Z 1) with 1%Q. lra.
  - rewrite inject_Z_plus. change (inject_Z 1) with 1%Q. lra.
Qed.

(** ** Doubles *)

Section DoubleFacts.

Lemma iter_xO_mul (m k : positive) :
  Zpos (Pos.iter xO m k) = Zpos m * 2 ^ Zpos k.
Proof.
  induction k as [|k IH] using Pos.peano_ind.
  - simpl. lia.
  - rewrite Pos.iter_succ, Pos2Z.inj_xO, IH, Pos2Z.inj_succ, Z.pow_succ_r by lia.
    lia.
Qed.

Lemma iter_xO_digits (m k : positive) :
  Zpos (digits2_pos (Pos.iter xO m k)) = Zpos (digits2_pos m) + Zpos k.
Proof.
  induction k as [|k IH] using Pos.peano_ind.
  - simpl. lia.
  - rewrite Pos.iter_succ. simpl digits2_pos. rewrite Pos2Z.inj_succ, IH. lia.
Qed.

Lemma digits2_pos_size (m : positive) : digits2_pos m = Pos.size m.
Proof. induction m; simpl; congruence. Qed.

Lemma digits2_pos_small (m : positive) :
  Zpos m < 2 ^ 53 -> Zpos (digits2_pos m) <= 53.
Proof.
  intros Hm. rewrite digits2_pos_size.
  pose proof (Pos.size_le m) as Hle.
  apply Pos2Z.pos_le_pos in Hle. rewrite Pos2Z.inj_pow, (Pos2Z.inj_xO m) in Hle.
  destruct (Z_le_gt_dec (Zpos (Pos.size m)) 53) as [H | H]; [exact H|].
  assert (Hbig : 2 ^ 54 <= 2 ^ Zpos (Pos.size m))
    by (apply Z.pow_le_mono_r; lia).
  assert (E : 2 ^ 54 = 2 * 2 ^ 53) by reflexivity.
  rewrite E in Hbig.
  set (P := 2 ^ 53) in *. set (S := 2 ^ Zpos (Pos.size m)) in *. lia.
Qed.

Lemma pow2_neg (d : positive) : (2 ^ Z.neg d * inject_Z (2 ^ Z.pos d) == 1)%Q.
Proof.
  change (Z.neg d) with (- Z.pos d)%Z.
  rewrite Qpower_opp, Zpower_Qpower by lia.
  change (inject_Z 2) with 2%Q.
  field. apply Qpower_not_0. discriminate.
Qed.

(** A mantissa of 53 bits with an exponent in range is stored as it is. *)
Lemma binary_round_aux_canonical (s : bool) (m : positive) (e : Z) :
  Zpos (digits2_pos m) = 53 -> -1074 <= e <= 971 ->
  binary_round_aux Double.prec Double.emax s (Zpos m) e loc_Exact
  = S754_finite s m e.
Proof.
  intros Hd He. unfold binary_round_aux, shr_fexp.
  assert (Hf : fexp Double.prec Double.emax (Zpos (digits2_pos m) + e) - e = 0).
  { unfold fexp, emin, Double.prec, Double.emax. rewrite Hd. lia. }
  cbn [Zdigits2 shr_record_of_loc]. rewrite Hf.
  cbn [shr shr_m loc_of_shr_record round_nearest_even Zdigits2 shr_record_of_loc].
  rewrite Hf. cbn [shr shr_m].
  replace (e <=? Double.emax - Double.prec) with true; [reflexivity|].
  symmetry. apply Z.leb_le. unfold Double.emax, Double.prec. lia.
Qed.

(** An integer of at most 53 bits is converted without rounding. *)
Lemma binary_round_integer (s : bool) (m : positive) :
  Zpos (digits2_pos m) <= 53 ->
  exists m' e',
    binary_round Double.prec Double.emax s m 0 = S754_finite s m' e'
    /\ (Double.finiteValue s m' e' == inject_Z (cond_Zopp s (Zpos m)))%Q.
Proof.
  intros Hd. unfold binary_round.
  assert (Hf : fexp Double.prec Double.emax (Zpos (digits2_pos m) + 0)
               = Zpos (digits2_pos m) - 53).
  { unfold fexp, emin, Double.prec, Double.emax. lia. }
  rewrite Hf. unfold shl_align.
  destruct (Zpos (digits2_pos m) - 53 - 0) as [|d|d] eqn:Ed; try lia.
  - rewrite binary_round_aux_canonical by lia.
    exists m, 0. split; [reflexivity|].
    unfold Double.finiteValue. simpl Qpower. ring.
  - rewrite binary_round_aux_canonical by (rewrite ?iter_xO_digits; lia).
    exists (Pos.iter xO m d), (Zpos (digits2_pos m) - 53). split; [reflexivity|].
    unfold Double.finiteValue.
    replace (Zpos (digits2_pos m) - 53) with (Z.neg d) by lia.
    assert (E : cond_Zopp s (Zpos (Pos.iter xO m d))
                = cond_Zopp s (Zpos m) * 2 ^ Zpos d).
    { destruct s; simpl; rewrite iter_xO_mul; lia. }
    rewrite E, inject_Z_mult, <- Qmult_assoc,
      (Qmult_comm (inject_Z (2 ^ Z.pos d))), pow2_neg.
    ring.
Qed.

(** The double of an integer below [2 ^ 53] in magnitude has that integer
    as its value. *)
Lemma value_ofInteger (s : bool) (r : Z) :
  Z.abs r < 2 ^ 53 ->
  exists q : Q, Double.value (Double.ofInteger s r) = Some q /\ (q == inject_Z r)%Q.
Proof.
  intros Hr. unfold Double.ofInteger.
  destruct (Z.eqb_spec r 0) as [-> | Hne].
  - exists 0%Q. split; reflexivity.
  - unfold Double.ofZ, binary_normalize. destruct r as [|m|m]; [contradiction| |].
    + destruct (binary_round_integer false m) as (m' & e' & -> & Hv);
        [apply digits2_pos_small; lia|].
      eexists. split; [reflexivity | exact Hv].
    + destruct (binary_round_integer true m) as (m' & e' & -> & Hv);
        [apply digits2_pos_small; lia|].
      eexists. split; [reflexivity | exact Hv].
Qed.

(** [Math.round] on a finite double: the nearest integer, a tie going to
    the larger neighbour; on a non-negative one this is rounding half away
    from zero. *)
Lemma double_round_finite (s : bool) (m : positive) (e : Z) :
  exists r : Z,
    Double.round (S754_finite s m e) = Double.ofInteger s r
    /\ (inject_Z r - (1 # 2) <= Double.finiteValue s m e)%Q
    /\ (Double.finiteValue s m e < inject_Z r + (1 # 2))%Q
    /\ (forall k : Z,
          (Double.finiteValue s m e == inject_Z k + (1 # 2))%Q -> r = k + 1)
    /\ (Z.abs r < 2 ^ 53 ->
        exists q : Q,
          Double.value (Double.round (S754_finite s m e)) = Some q
          /\ (q == inject_Z r)%Q)
    /\ ((0 <= Double.finiteValue s m e)%Q ->
        Double.round (S754_finite s m e)
        = Double.Spec.roundHalfAwayFromZero (S754_finite s m e)).
Proof.
  exists (Math.round (Double.finiteValue s m e)).
  destruct (round_nearest (Double.finiteValue s m e)) as [Hlo Hhi].
  split; [reflexivity|]. split; [exact Hlo|]. split; [exact Hhi|]. split.
  - intros k Hk. now apply round_tie.
  - split.
    + intros Hr. now apply value_ofInteger.
    + intros Hpos. unfold Double.round, Double.Spec.roundHalfAwayFromZero.
      now rewrite round_nonneg_half_away.
Qed.

Lemma double_forEach_sumFrom {A : Type} (g : A -> Double.double) (l : list A)
    (acc : Double.double) :
  forEach l (fun acc x => Double.add acc (g x)) acc
  = Double.Spec.sumFrom acc (map g l).
Proof.
  unfold forEach. revert acc.
  induction l as [|x l IH]; intros acc; simpl; [reflexivity | apply IH].
Qed.

(** Subtracting [discount || 0] and flooring at 0 is the same as with the
    discount itself, unless the discount is NaN. *)
Lemma double_max_sub_orZero (subtotal discount : Double.double) :
  discount <> S754_nan ->
  Double.max Double.zero (Double.sub subtotal (Double.orZero discount))
  = Double.max Double.zero (Double.sub subtotal discount).
Proof.
  intros Hnan. destruct discount as [sd | sd | | sd md ed];
    [|reflexivity | contradiction | reflexivity].
  destruct subtotal as [ss | ss | | ss ms es]; try reflexivity.
  destruct ss, sd; reflexivity.
Qed.

End DoubleFacts.

(** C3, as stated, fails.  One item of 50 at a tax rate of -5 %: the taxable
    amount is 50 and the product with the rate is -2.5, whichever way it is
    grouped; the code's tax amount is -2, rounding half away from zero gives
    -3. *)
Lemma taxAmount_not_half_away :
  Double.taxableAmount (Double.oneItem 50 (-5) false) = Double.ofZ 50
  /\ Double.taxAmount (Double.oneItem 50 (-5) false) = Double.ofZ (-2)
  /\ Double.taxAmount (Double.oneItem 50 (-5) false)
     <> Double.Spec.roundHalfAwayFromZero
          (Double.mul (Double.ofZ 50) (Double.div (Double.ofZ (-5)) (Double.ofZ 100)))
  /\ Double.taxAmount (Double.oneItem 50 (-5) false)
     <> Double.Spec.roundHalfAwayFromZero
          (Double.div (Double.mul (Double.ofZ 50) (Double.ofZ (-5))) (Double.ofZ 100)).
Proof.
  split; [vm_compute; reflexivity|]. split; [vm_compute; reflexivity|].
  split; vm_compute; discriminate.
Qed.

(** C3, amended.  In double arithmetic, operation by operation as the code
    has them: the row amount is the product of the effective unit price and
    the quantity, not rounded to an integer (in tax-exclusive mode the
    product of the stored price and the quantity); the subtotal is the row
    amounts added one after the other in list order, starting from 0; the
    taxable amount is [max (0, subtotal - discount)], a NaN discount counting
    as 0; the tax amount is [Math.round] of the one product
    [taxableAmount * (taxRate / 100)]: when that product is finite, the
    integer nearest to it, a tie going to the larger neighbour, which is
    rounding half away from zero when the product is not negative, and
    otherwise (a zero, an infinity, NaN) the product itself; and the total
    is the taxable amount plus the tax amount. *)
Theorem totals_in_doubles (data : Double.QuotationData) :
  (forall item : Double.QuoteItem,
     Double.rowAmount data item
     = Double.mul (Double.getPreTaxUnitPrice data (Double.price item))
         (Double.quantity item))
  /\ (Double.isTaxInclusive data = false ->
      forall item : Double.QuoteItem,
        Double.rowAmount data item
        = Double.mul (Double.price item) (Double.quantity item))
  /\ Double.calculatedSubtotal data
     = Double.Spec.sumInOrder (map (Double.rowAmount data) (Double.items data))
  /\ (Double.discount data <> S754_nan ->
      Double.taxableAmount data
      = Double.max Double.zero
          (Double.sub (Double.calculatedSubtotal data) (Double.discount data)))
  /\ (Double.discount data = S754_nan ->
      Double.taxableAmount data
      = Double.max Double.zero
          (Double.sub (Double.calculatedSubtotal data) Double.zero))
  /\ (forall (s : bool) (m : positive) (e : Z),
        Double.mul (Double.taxableAmount data)
          (Double.div (Double.taxRate (Double.quoteDetails data)) (Double.ofZ 100))
        = S754_finite s m e ->
        exists r : Z,
          Double.taxAmount data = Double.ofInteger s r
          /\ (inject_Z r - (1 # 2) <= Double.finiteValue s m e)%Q
          /\ (Double.finiteValue s m e < inject_Z r + (1 # 2))%Q
          /\ (Z.abs r < 2 ^ 53 ->
              exists q : Q,
                Double.value (Double.taxAmount data) = Some q
                /\ (q == inject_Z r)%Q)
          /\ ((0 <= Double.finiteValue s m e)%Q ->
              Double.taxAmount data
              = Double.Spec.roundHalfAwayFromZero (S754_finite s m e)))
  /\ ((forall s m e,
         Double.mul (Double.taxableAmount data)
           (Double.div (Double.taxRate (Double.quoteDetails data)) (Double.ofZ 100))
         <> S754_finite s m e) ->
      Double.taxAmount data
      = Double.mul (Double.taxableAmount data)
          (Double.div (Double.taxRate (Double.quoteDetails data)) (Double.ofZ 100)))
  /\ Double.total data
     = Double.add (Double.taxableAmount data) (Double.taxAmount data).
Proof.
  split; [reflexivity|].
  split; [intros Hex item; unfold Double.rowAmount, Double.getPreTaxUnitPrice;
          now rewrite Hex|].
  split; [apply (double_forEach_sumFrom (Double.rowAmount data))|].
  split; [intros Hnan; unfold Double.taxableAmount;
          now apply double_max_sub_orZero|].
  split; [intros Hnan; unfold Double.taxableAmount; now rewrite Hnan|].
  split; [|split; [|reflexivity]].
  - intros s m e Hprod. unfold Double.taxAmount. rewrite Hprod.
    destruct (double_round_finite s m e)
      as (r & Hr & Hlo & Hhi & _ & Hval & Haway).
    exists r. repeat (split; [assumption|]). assumption.
  - intros Hprod. unfold Double.taxAmount.
    destruct (Double.mul (Double.taxableAmount data)
                (Double.div (Double.taxRate (Double.quoteDetails data))
                   (Double.ofZ 100))) as [| | |s m e]; try reflexivity.
    now contradiction (Hprod s m e).
Qed.

Lemma totals_in_doubles_witness :
  Double.isTaxInclusive (Double.oneItem 50 29 false) = false
  /\ Double.rowAmount (Double.oneItem 50 29 false)
       (Double.mkItem 1 "" "" None (Double.ofZ 1) (Double.ofZ 50))
     = Double.mul (Double.ofZ 50) (Double.ofZ 1).
Proof.
  split; [reflexivity|].
  destruct (totals_in_doubles (Double.oneItem 50 29 false)) as (_ & Hex & _).
  exact (Hex eq_refl (Double.mkItem 1 "" "" None (Double.ofZ 1) (Double.ofZ 50))).
Defined.

(** The specification's worked examples, and three inputs on which double
    arithmetic shows: 50 at 29 % has the product 14.499999999999998 and a
    tax of 14; 14 with 12 % tax included has the quotient
    12.499999999999998 and a pre-tax price of 12; and 35.3, 20.8, 33.9 add
    up to 90 in that order but to 89.99999999999999 starting with 33.9. *)
Example totals_exclusive_example :
  Double.taxableAmount (Double.oneItem 10000 5 false) = Double.ofZ 10000
  /\ Double.taxAmount (Double.oneItem 10000 5 false) = Double.ofZ 500
  /\ Double.total (Double.oneItem 10000 5 false) = Double.ofZ 10500.
Proof. repeat split; vm_compute; reflexivity. Qed.

Example totals_inclusive_example :
  Double.getPreTaxUnitPrice (Double.oneItem 1050 5 true) (Double.ofZ 1050)
  = Double.ofZ 1000
  /\ Double.calculatedSubtotal (Double.oneItem 1050 5 true) = Double.ofZ 1000.
Proof. split; vm_compute; reflexivity. Qed.

Example totals_double_rounding_example :
  Double.taxAmount (Double.oneItem 50 29 false) = Double.ofZ 14
  /\ Double.total (Double.oneItem 50 29 false) = Double.ofZ 64
  /\ Double.getPreTaxUnitPrice (Double.oneItem 14 12 true) (Double.ofZ 14)
     = Double.ofZ 12
  /\ Double.calculatedSubtotal (Double.tenthsData [353; 208; 339])
     = Double.ofZ 90
  /\ Double.calculatedSubtotal (Double.tenthsData [339; 353; 208])
     <> Double.ofZ 90.
Proof.
  split; [vm_compute; reflexivity|]. split; [vm_compute; reflexivity|].
  split; [vm_compute; reflexivity|]. split; [vm_compute; reflexivity|].
  vm_compute. discriminate.
Qed.

(** C4, as stated, fails.  With a 100 % rate a tax-inclusive price of -5 has
    the pre-tax quotient -2.5; the code returns -2, rounding half away from
    zero gives -3. *)
Lemma getPreTaxUnitPrice_not_half_away :
  Double.div (Double.ofZ (-5)) (Double.taxFactor (Double.oneItem (-5) 100 true))
  = Double.div (Double.ofZ (-5)) (Double.ofZ 2)
  /\ Double.getPreTaxUnitPrice (Double.oneItem (-5) 100 true) (Double.ofZ (-5))
     = Double.ofZ (-2)
  /\ Double.Spec.roundHalfAwayFromZero
       (Double.div (Double.ofZ (-5))
          (Double.taxFactor (Double.oneItem (-5) 100 true)))
     = Double.ofZ (-3)
  /\ Double.getPreTaxUnitPrice (Double.oneItem (-5) 100 true) (Double.ofZ (-5))
     <> Double.Spec.roundHalfAwayFromZero
          (Double.div (Double.ofZ (-5))
             (Double.taxFactor (Double.oneItem (-5) 100 true))).
Proof.
  split; [vm_compute; reflexivity|]. split; [vm_compute; reflexivity|].
  split; [vm_compute; reflexivity|]. vm_compute. discriminate.
Qed.

(** C4, amended.  In tax-inclusive mode the effective unit price is
    [Math.round] of the double quotient [unitPrice / taxFactor], the tax
    factor being [1 + taxRate / 100] in double arithmetic: when the quotient
    is finite, the integer nearest to it, a tie going to the larger
    neighbour (a quotient of exactly [k + 1/2] gives [k + 1], so
    [-k - 1/2] gives [-k]), which is rounding half away from zero when the
    quotient is not negative; a quotient that is a zero, an infinity or NaN
    is returned as it is.  In tax-exclusive mode the effective unit price is
    the unit price unchanged.  Negative prices and every tax rate are
    covered. *)
Theorem getPreTaxUnitPrice_in_doubles (data : Double.QuotationData)
    (unitPrice : Double.double) :
  (Double.isTaxInclusive data = true ->
   (forall (s : bool) (m : positive) (e : Z),
      Double.div unitPrice (Double.taxFactor data) = S754_finite s m e ->
      exists r : Z,
        Double.getPreTaxUnitPrice data unitPrice = Double.ofInteger s r
        /\ (inject_Z r - (1 # 2) <= Double.finiteValue s m e)%Q
        /\ (Double.finiteValue s m e < inject_Z r + (1 # 2))%Q
        /\ (forall k : Z,
              (Double.finiteValue s m e == inject_Z k + (1 # 2))%Q -> r = k + 1)
        /\ (Z.abs r < 2 ^ 53 ->
            exists q : Q,
              Double.value (Double.getPreTaxUnitPrice data unitPrice) = Some q
              /\ (q == inject_Z r)%Q)
        /\ ((0 <= Double.finiteValue s m e)%Q ->
            Double.getPreTaxUnitPrice data unitPrice
            = Double.Spec.roundHalfAwayFromZero (S754_finite s m e)))
   /\ ((forall s m e,
          Double.div unitPrice (Double.taxFactor data) <> S754_finite s m e) ->
       Double.getPreTaxUnitPrice data unitPrice
       = Double.div unitPrice (Double.taxFactor data)))
  /\ (Double.isTaxInclusive data = false ->
      Double.getPreTaxUnitPrice data unitPrice = unitPrice).
Proof.
  unfold Double.getPreTaxUnitPrice. split; intros ->; [|reflexivity]. split.
  - intros s m e Hq. rewrite Hq. apply double_round_finite.
  - intros Hq. destruct (Double.div unitPrice (Double.taxFactor data)) as [| | |s m e];
      try reflexivity.
    now contradiction (Hq s m e).
Qed.

Lemma getPreTaxUnitPrice_in_doubles_witness :
  Double.isTaxInclusive (Double.oneItem 14 12 true) = true
  /\ Double.div (Double.ofZ 14) (Double.taxFactor (Double.oneItem 14 12 true))
     = S754_finite false 7036874417766399 (-49)
  /\ exists r : Z,
       Double.getPreTaxUnitPrice (Double.oneItem 14 12 true) (Double.ofZ 14)
       = Double.ofInteger false r
       /\ (inject_Z r - (1 # 2)
           <= Double.finiteValue false 7036874417766399 (-49))%Q
       /\ (Double.finiteValue false 7036874417766399 (-49)
           < inject_Z r + (1 # 2))%Q.
Proof.
  assert (Hq : Double.div (Double.ofZ 14)
                 (Double.taxFactor (Double.oneItem 14 12 true))
               = S754_finite false 7036874417766399 (-49))
    by (vm_compute; reflexivity).
  split; [reflexivity|]. split; [exact Hq|].
  destruct (getPreTaxUnitPrice_in_doubles (Double.oneItem 14 12 true)
              (Double.ofZ 14)) as [Hin _].
  destruct (Hin eq_refl) as [Hfin _].
  destruct (Hfin _ _ _ Hq) as (r & Hr & Hlo & Hhi & _).
  exists r. split; [exact Hr|]. split; [exact Hlo | exact Hhi].
Defined.

(** * Properties of the surrounding code *)

(** ** Page heights and page breaks *)

Section PageFlow.

Lemma rowsHeight_app (a b : list QuoteItem) :
  rowsHeight (a ++ b) = rowsHeight a + rowsHeight b.
Proof.
  unfold rowsHeight. induction a as [|x a IH]; simpl; [reflexivity|].
  rewrite IH. lia.
Qed.

Lemma rowsHeight_singleton (x : QuoteItem) : rowsHeight [x] = getItemHeight x.
Proof. unfold rowsHeight. simpl. lia. Qed.

(** Row heights are multiples of 3, the headers and the limit leave
    different remainders: a page never ends exactly on the limit. *)
Lemma rowsHeight_multiple_of_3 (pg : list QuoteItem) :
  exists k : Z, rowsHeight pg = 3 * k.
Proof.
  unfold rowsHeight. induction pg as [|x pg [k IH]]; simpl.
  - now exists 0.
  - destruct (getItemHeight_form x) as (j & _ & ->). rewrite IH.
    exists (15 + 8 * j + k). unfold ROW_BASE_HEIGHT, ROW_LINE_HEIGHT. lia.
Qed.

Lemma page_never_on_limit (p : nat) (pg : list QuoteItem) (x : QuoteItem) :
  pageHeader p + rowsHeight pg + getItemHeight x <> limit.
Proof.
  destruct (rowsHeight_multiple_of_3 (pg ++ [x])) as [k Hk].
  rewrite rowsHeight_app, rowsHeight_singleton in Hk.
  unfold pageHeader, limit, A4_CONTENT_HEIGHT, BOTTOM_SPACER,
    HEADER_HEIGHT, PAGE_2_HEADER_HEIGHT.
  destruct (p =? 0)%nat; lia.
Qed.

Lemma pagesOk_snoc (pgs : list (list QuoteItem)) (lastpg : list QuoteItem)
    (y : QuoteItem) :
  pagesOk (pgs ++ [lastpg]) ->
  limit <= pageHeader (length pgs) + rowsHeight lastpg + getItemHeight y ->
  pagesOk ((pgs ++ [lastpg]) ++ [[y]]).
Proof.
  intros [Hfit Hbrk] Hy. split.
  - intros p pg Hp. apply lookup_app_Some in Hp as [Hp | [Hge Hp]].
    + now apply Hfit.
    + apply list_lookup_singleton_Some in Hp as [Hp <-].
      right. rewrite length_app in *. simpl in *. split; [lia|]. now exists y.
  - intros p pg x rest Hp Hq.
    apply lookup_app_Some in Hq as [Hq | [Hge Hq]].
    + apply (Hbrk p pg x rest); [|exact Hq].
      apply lookup_lt_Some in Hq. rewrite lookup_app_l in Hp by lia. exact Hp.
    + apply list_lookup_singleton_Some in Hq as [Hq Heq].
      injection Heq as <- <-.
      rewrite length_app in *. simpl in *.
      assert (p = length pgs) by lia. subst p.
      rewrite <- app_assoc, lookup_app_r in Hp by lia.
      rewrite Nat.sub_diag in Hp. simpl in Hp. injection Hp as <-. exact Hy.
Qed.

Lemma pagesOk_extend (pgs : list (list QuoteItem)) (cur : list QuoteItem)
    (y : QuoteItem) :
  pagesOk (pgs ++ [cur]) ->
  pageHeader (length pgs) + rowsHeight (cur ++ [y]) <= limit ->
  (pgs <> [] -> cur <> []) ->
  pagesOk (pgs ++ [cur ++ [y]]).
Proof.
  intros [Hfit Hbrk] Hy Hne. split.
  - intros p pg Hp. apply lookup_app_Some in Hp as [Hp | [Hge Hp]].
    + apply Hfit. rewrite lookup_app_l by (eapply lookup_lt_Some; eassumption).
      exact Hp.
    + apply list_lookup_singleton_Some in Hp as [Hp <-].
      assert (p = length pgs) by lia. subst p. now left.
  - intros p pg x rest Hp Hq.
    assert (Hp' : pgs !! p = Some pg).
    { apply lookup_app_Some in Hp as [Hp | [Hge Hp]]; [exact Hp|].
      apply lookup_lt_Some in Hq. rewrite length_app in Hq. simpl in Hq. lia. }
    apply lookup_app_Some in Hq as [Hq | [Hge Hq]].
    + apply (Hbrk p pg x rest).
      * rewrite lookup_app_l by (eapply lookup_lt_Some; eassumption). exact Hp'.
      * rewrite lookup_app_l by (eapply lookup_lt_Some; eassumption). exact Hq.
    + apply list_lookup_singleton_Some in Hq as [Hq Heq].
      assert (Hnil : pgs <> []) by (intros ->; discriminate).
      specialize (Hne Hnil). destruct cur as [|c cur]; [contradiction|].
      simpl in Heq. injection Heq as <- <-.
      apply (Hbrk p pg c cur).
      * rewrite lookup_app_l by (eapply lookup_lt_Some; eassumption). exact Hp'.
      * rewrite lookup_app_r by lia.
        replace (S p - length pgs)%nat with 0%nat by lia. reflexivity.
Qed.

Lemma pagesOk_initial : pagesOk [[]].
Proof.
  split.
  - intros p pg Hp. apply list_lookup_singleton_Some in Hp as [-> <-].
    left. vm_compute. discriminate.
  - intros p pg x rest _ Hq. destruct p; discriminate.
Qed.

Lemma flowInv_initial : flowInv initialPlan.
Proof.
  split; simpl.
  - reflexivity.
  - exact pagesOk_initial.
  - intros H. contradiction.
Qed.

Lemma pageHeader_succ (n : nat) : pageHeader (S n) = PAGE_2_HEADER_HEIGHT.
Proof. reflexivity. Qed.

Lemma flowInv_innerItemStep (st : PlanState) (x : QuoteItem) :
  flowInv st -> flowInv (innerItemStep st x).
Proof.
  intros [Hh Hpg Hne]. unfold innerItemStep.
  destruct (_ >? _) eqn:Hover; split; simpl.
  - rewrite length_app. simpl. rewrite Nat.add_1_r, pageHeader_succ.
    now rewrite rowsHeight_singleton.
  - apply pagesOk_snoc; [exact Hpg|].
    rewrite Z.gtb_ltb in Hover. apply Z.ltb_lt in Hover. lia.
  - discriminate.
  - rewrite rowsHeight_app, rowsHeight_singleton. lia.
  - apply pagesOk_extend; [exact Hpg | | exact Hne].
    rewrite Z.gtb_ltb in Hover. apply Z.ltb_ge in Hover.
    rewrite rowsHeight_app, rowsHeight_singleton. lia.
  - intros _. now destruct (currentPageItems st).
Qed.

Lemma flowInv_fill (l : list QuoteItem) (st : PlanState) :
  flowInv st -> flowInv (fill l st).
Proof.
  intros Hinv. induction l as [|x l IH] using rev_ind; [assumption|].
  rewrite fill_snoc. now apply flowInv_innerItemStep.
Qed.

Lemma pagesOk_flush_lastItemStep (st : PlanState) (x : QuoteItem) :
  flowInv st -> pagesOk (flush (lastItemStep st x)).
Proof.
  intros [Hh Hpg Hne]. unfold lastItemStep.
  destruct (_ >? _) eqn:Hfoot; [destruct (_ <? _) eqn:Hfit|]; unfold flush; simpl.
  - rewrite length_app. simpl.
    replace (length (resultPages st) + 1 =? 0)%nat with false
      by (symmetry; apply Nat.eqb_neq; lia).
    apply pagesOk_extend; [exact Hpg | | exact Hne].
    apply Z.ltb_lt in Hfit. rewrite rowsHeight_app, rowsHeight_singleton. lia.
  - apply pagesOk_snoc; [exact Hpg|]. apply Z.ltb_ge in Hfit. lia.
  - assert (Hlen : (0 <? length (currentPageItems st ++ [x]))%nat = true)
      by (apply Nat.ltb_lt; rewrite length_app; simpl; lia).
    rewrite Hlen.
    apply pagesOk_extend; [exact Hpg | | exact Hne].
    rewrite Z.gtb_ltb in Hfoot. apply Z.ltb_ge in Hfoot.
    rewrite rowsHeight_app, rowsHeight_singleton.
    unfold limit, A4_CONTENT_HEIGHT, BOTTOM_SPACER, FOOTER_HEIGHT in *. lia.
Qed.

Lemma pagesOk_pages (data : QuotationData) : pagesOk (pages data).
Proof.
  unfold pages.
  destruct (list_snoc_cases (items data)) as [-> | (l & x & ->)].
  - exact pagesOk_initial.
  - rewrite planLoop_snoc.
    apply pagesOk_flush_lastItemStep, flowInv_fill, flowInv_initial.
Qed.

End PageFlow.

(** X1.  Every page of the planner's result is within the limit, header
    included, unless it is a continuation page that holds a single item. *)
Theorem pages_within_limit (data : QuotationData) (p : nat)
    (pg : list QuoteItem) :
  pages data !! p = Some pg ->
  pageHeader p + rowsHeight pg <= limit
  \/ ((0 < p)%nat /\ exists x : QuoteItem, pg = [x]).
Proof. intros Hp. exact (proj1 (pagesOk_pages data) p pg Hp). Qed.

Lemma pages_within_limit_witness :
  pages fiveThreeData !! 0%nat = Some (map fourLineItem [1; 2; 3; 4; 5])
  /\ (pageHeader 0 + rowsHeight (map fourLineItem [1; 2; 3; 4; 5]) <= limit
      \/ ((0 < 0)%nat
          /\ exists x : QuoteItem, map fourLineItem [1; 2; 3; 4; 5] = [x])).
Proof.
  assert (Hp : pages fiveThreeData !! 0%nat
               = Some (map fourLineItem [1; 2; 3; 4; 5]))
    by (vm_compute; reflexivity).
  split; [exact Hp|].
  exact (pages_within_limit fiveThreeData 0 _ Hp).
Defined.

(** X2.  The planner breaks pages greedily: where a page is followed by
    another, the first item of the following page would have pushed the
    page past the limit. *)
Theorem pages_break_only_when_full (data : QuotationData) (p : nat)
    (pg rest : list QuoteItem) (x : QuoteItem) :
  pages data !! p = Some pg ->
  pages data !! S p = Some (x :: rest) ->
  limit < pageHeader p + rowsHeight pg + getItemHeight x.
Proof.
  intros Hp Hq.
  pose proof (proj2 (pagesOk_pages data) p pg x rest Hp Hq) as Hge.
  pose proof (page_never_on_limit p pg x). lia.
Qed.

Lemma pages_break_only_when_full_witness :
  limit < pageHeader 0 + rowsHeight (map fourLineItem [1; 2; 3; 4; 5])
          + getItemHeight (blankItem 6).
Proof.
  apply (pages_break_only_when_full fiveThreeData 0
           (map fourLineItem [1; 2; 3; 4; 5]) (map blankItem [7; 8]) (blankItem 6)).
  - vm_compute. reflexivity.
  - vm_compute. reflexivity.
Defined.

(** ** Number of pages and the last page *)

Section PageCount.

Lemma length_concat_nonempty (more : list (list QuoteItem)) :
  Forall nonempty more -> (length more <= length (concat more))%nat.
Proof.
  induction 1 as [|pg more Hpg _ IH]; simpl; [lia|].
  rewrite length_app. destruct pg; [now contradiction Hpg|]. simpl. lia.
Qed.

Lemma flush_lastItemStep_ends (st : PlanState) (z : QuoteItem) :
  exists pgs pg, flush (lastItemStep st z) = pgs ++ [pg ++ [z]].
Proof.
  unfold lastItemStep.
  destruct (_ >? _); [destruct (_ <? _)|]; unfold flush; simpl.
  - rewrite length_app. simpl.
    replace (length (resultPages st) + 1 =? 0)%nat with false
      by (symmetry; apply Nat.eqb_neq; lia).
    now exists (resultPages st), (currentPageItems st).
  - now exists (resultPages st ++ [currentPageItems st]), [].
  - assert (Hlen : (0 <? length (currentPageItems st ++ [z]))%nat = true)
      by (apply Nat.ltb_lt; rewrite length_app; simpl; lia).
    rewrite Hlen. now exists (resultPages st), (currentPageItems st).
Qed.

End PageCount.

(** X3.  The planner returns at least one page and at most one page more
    than there are items. *)
Theorem pages_count (data : QuotationData) :
  (1 <= length (pages data) <= length (items data) + 1)%nat.
Proof.
  destruct (list_ends_cases (items data))
    as [Hnil | [(x & Hone) | (x & m & z & Hmore)]].
  - rewrite (pages_nil _ Hnil), Hnil. simpl. lia.
  - rewrite (pages_single _ _ Hone), Hone.
    destruct (_ && _); simpl; lia.
  - pose proof (concat_pages data) as Hcat.
    destruct (pages_several _ _ _ _ Hmore) as (more & Hpg & Hall & Hne).
    rewrite Hpg in *. rewrite concat_app in Hcat.
    pose proof (length_concat_nonempty _ Hall) as Hlen.
    assert (Hpre : concat (if HEADER_HEIGHT + getItemHeight x >? limit
                           then [[]] else []) = @nil QuoteItem)
      by (destruct (_ >? _); reflexivity).
    rewrite Hpre in Hcat. simpl in Hcat. rewrite Hcat in Hlen.
    rewrite length_app. destruct more; [contradiction|].
    destruct (_ >? _); simpl in *; lia.
Qed.

(** X4.  When there is at least one item, the last page of the result, the
    one flagged [isLastPage] and so the one that carries the footer, ends
    with the last item of the list. *)
Theorem last_page_ends_with_last_item (data : QuotationData)
    (l : list QuoteItem) (z : QuoteItem) :
  items data = l ++ [z] ->
  exists pgs pg,
    pages data = pgs ++ [pg ++ [z]]
    /\ isLastPage (pages data) (length pgs) = true
    /\ (forall p : nat, isLastPage (pages data) p = true -> p = length pgs).
Proof.
  intros Hitems. unfold pages at 1. rewrite Hitems, planLoop_snoc.
  destruct (flush_lastItemStep_ends (fill l initialPlan) z) as (pgs & pg & Hfl).
  exists pgs, pg. split; [exact Hfl|].
  assert (Hpages : pages data = pgs ++ [pg ++ [z]])
    by (unfold pages; now rewrite Hitems, planLoop_snoc).
  unfold isLastPage. rewrite Hpages, length_app. simpl. split.
  - apply Nat.eqb_eq. lia.
  - intros p Hp. apply Nat.eqb_eq in Hp. lia.
Qed.

Lemma last_page_ends_with_last_item_witness :
  exists pgs pg, pages eightBlankData = pgs ++ [pg ++ [blankItem 8]].
Proof.
  destruct (last_page_ends_with_last_item eightBlankData
              (map blankItem [1; 2; 3; 4; 5; 6; 7]) (blankItem 8) eq_refl)
    as (pgs & pg & H & _).
  now exists pgs, pg.
Defined.

(** ** Row numbers: bounds and order *)

Section RowNumberOrder.

Lemma countBefore_None (pgs : list (list QuoteItem)) (k i count : nat) :
  (length pgs < i + k)%nat -> (i <= length pgs)%nat ->
  countBefore pgs i k count = None.
Proof.
  revert i count. induction k as [|k IH]; intros i count Hlt Hle; simpl; [lia|].
  destruct (pgs !! i) as [pg|] eqn:Hpg; [|reflexivity].
  apply lookup_lt_Some in Hpg. apply IH; lia.
Qed.

Lemma length_concat_take_le (pgs : list (list QuoteItem)) (p q : nat) :
  (p <= q)%nat ->
  (length (concat (take p pgs)) <= length (concat (take q pgs)))%nat.
Proof.
  revert p q. induction pgs as [|pg pgs IH]; intros p q Hpq.
  - now rewrite !take_nil.
  - destruct p as [|p]; [simpl; lia|]. destruct q as [|q]; [lia|].
    simpl. rewrite !length_app. specialize (IH p q). lia.
Qed.

Lemma length_concat_take_S (pgs : list (list QuoteItem)) (p : nat)
    (pg : list QuoteItem) :
  pgs !! p = Some pg ->
  length (concat (take (S p) pgs))
  = (length (concat (take p pgs)) + length pg)%nat.
Proof.
  intros Hp. rewrite (take_S_r _ _ _ Hp), concat_app, length_app.
  simpl. rewrite app_nil_r. reflexivity.
Qed.

End RowNumberOrder.

(** X5.  [getGlobalIndex] fails exactly when the page index is larger than
    the number of pages; for a page index up to that number it returns the
    number of items on the pages before it, plus the local index, plus 1. *)
Theorem getGlobalIndex_defined (pgs : list (list QuoteItem)) (p i : nat) :
  (getGlobalIndex pgs p i = None <-> (length pgs < p)%nat)
  /\ ((p <= length pgs)%nat ->
      getGlobalIndex pgs p i
      = Some (length (concat (take p pgs)) + i + 1)%nat).
Proof.
  split; [|apply getGlobalIndex_closed].
  split.
  - intros Hnone. destruct (Nat.le_gt_cases p (length pgs)) as [Hle | Hgt]; [|exact Hgt].
    rewrite (getGlobalIndex_closed _ _ _ Hle) in Hnone. discriminate.
  - intros Hgt. unfold getGlobalIndex.
    rewrite countBefore_None by lia. reflexivity.
Qed.

Lemma getGlobalIndex_defined_witness :
  getGlobalIndex [[blankItem 1]; [blankItem 2]] 2 0 = Some 3%nat.
Proof.
  apply (proj2 (getGlobalIndex_defined [[blankItem 1]; [blankItem 2]] 2 0)).
  simpl. lia.
Defined.

(** X6.  Row numbers follow the reading order: of two slots of a page list,
    the one on the earlier page, or earlier on the same page, has the
    smaller number; in particular no two slots share a number. *)
Theorem getGlobalIndex_increasing (pgs : list (list QuoteItem))
    (p i q j : nat) (pg pg' : list QuoteItem) :
  pgs !! p = Some pg -> (i < length pg)%nat ->
  pgs !! q = Some pg' -> (j < length pg')%nat ->
  (p < q)%nat \/ (p = q /\ (i < j)%nat) ->
  exists m n : nat,
    getGlobalIndex pgs p i = Some m
    /\ getGlobalIndex pgs q j = Some n
    /\ (m < n)%nat.
Proof.
  intros Hp Hi Hq Hj Hord.
  pose proof (lookup_lt_Some _ _ _ Hp) as Hpl.
  pose proof (lookup_lt_Some _ _ _ Hq) as Hql.
  exists (length (concat (take p pgs)) + i + 1)%nat,
         (length (concat (take q pgs)) + j + 1)%nat.
  rewrite !getGlobalIndex_closed by lia.
  split; [reflexivity|]. split; [reflexivity|].
  destruct Hord as [Hlt | [-> Hlt]]; [|lia].
  pose proof (length_concat_take_le pgs (S p) q Hlt) as Hle.
  rewrite (length_concat_take_S _ _ _ Hp) in Hle. lia.
Qed.

Lemma getGlobalIndex_increasing_witness :
  exists m n : nat,
    getGlobalIndex (pages fiveThreeData) 0 4 = Some m
    /\ getGlobalIndex (pages fiveThreeData) 1 0 = Some n
    /\ (m < n)%nat.
Proof.
  apply (getGlobalIndex_increasing (pages fiveThreeData) 0 4 1 0
           (map fourLineItem [1; 2; 3; 4; 5]) (map blankItem [6; 7; 8])).
  - vm_compute. reflexivity.
  - simpl. lia.
  - vm_compute. reflexivity.
  - simpl. lia.
  - left. lia.
Defined.

(** ** Explicit line breaks add up *)

Section LineBreaks.

Lemma split_app_sep (sep : ascii) (s t : string) :
  split sep (String.append s (String sep t)) = split sep s ++ split sep t.
Proof.
  induction s as [|c s IH]; cbn [String.append split].
  - now rewrite Ascii.eqb_refl.
  - rewrite IH. destruct (Ascii.eqb c sep); [reflexivity|].
    pose proof (split_nonempty sep s) as Hne.
    destruct (split sep s); [contradiction | reflexivity].
Qed.

(** The early return for the empty text agrees with the loop. *)
Lemma countLines_forEach (t : string) (cpl : Q) :
  countLines (Some t) cpl
  = forEach (split newline t)
      (fun totalLines line =>
         totalLines + Math.max 1 (Math.ceil (len line / cpl)))
      0.
Proof.
  destruct t as [|c t]; [|apply countLines_nonempty].
  pose proof (countLines_single_segment EmptyString cpl eq_refl) as H.
  change (countLines (Some EmptyString) cpl) with 1 in *.
  unfold forEach. cbn [split fold_left]. rewrite <- H. reflexivity.
Qed.

End LineBreaks.

(** X7.  An explicit line break splits the estimate: the lines of
    [s + '\n' + t] are the lines of [s] plus the lines of [t], for all
    texts [s] and [t], the empty ones included. *)
Theorem countLines_line_break (s t : string) (cpl : Q) :
  ~ (cpl == 0)%Q ->
  countLines (Some (String.append s (String newline t))) cpl
  = countLines (Some s) cpl + countLines (Some t) cpl.
Proof.
  intros _. rewrite !countLines_forEach, split_app_sep, !forEach_sum.
  rewrite map_app.
  assert (Happ : forall a b, Spec.sumZ (a ++ b) = Spec.sumZ a + Spec.sumZ b).
  { intros a b. induction a as [|x a IH]; simpl; [reflexivity|]. rewrite IH. lia. }
  rewrite Happ. lia.
Qed.

Lemma countLines_line_break_witness :
  countLines (Some (String.append "ab" (String newline "cd"))) 22
  = countLines (Some "ab"%string) 22 + countLines (Some "cd"%string) 22.
Proof.
  apply (countLines_line_break "ab" "cd" 22).
  unfold Qeq; simpl; lia.
Defined.

(** ** Totals at the edges *)

Section TotalsEdges.

Lemma round_zero : Math.round 0 = 0.
Proof. reflexivity. Qed.


Lemma round_comp (x y : Q) : (x == y)%Q -> Math.round x = Math.round y.
Proof. intros E. unfold Math.round. apply Qfloor_comp. now rewrite E. Qed.


End TotalsEdges.





(** ** Editing items *)

Section PlanMap.

Variable g : QuoteItem -> QuoteItem.
Hypothesis g_height : forall x : QuoteItem, getItemHeight (g x) = getItemHeight x.

Lemma mapPlan_innerItemStep (st : PlanState) (x : QuoteItem) :
  innerItemStep (mapPlan g st) (g x) = mapPlan g (innerItemStep st x).
Proof.
  unfold innerItemStep, mapPlan. rewrite g_height. simpl.
  destruct (_ >? _); simpl; now rewrite map_app.
Qed.

Lemma mapPlan_lastItemStep (st : PlanState) (x : QuoteItem) :
  lastItemStep (mapPlan g st) (g x) = mapPlan g (lastItemStep st x).
Proof.
  unfold lastItemStep, mapPlan. rewrite g_height. simpl.
  destruct (_ >? _); [destruct (_ <? _)|]; simpl.
  - rewrite map_app. simpl. rewrite map_app. reflexivity.
  - rewrite map_app. reflexivity.
  - rewrite map_app. reflexivity.
Qed.

Lemma mapPlan_fill (l : list QuoteItem) (st : PlanState) :
  fill (map g l) (mapPlan g st) = mapPlan g (fill l st).
Proof.
  induction l as [|x l IH] using rev_ind; [reflexivity|].
  rewrite map_app. change (map g [x]) with [g x].
  now rewrite !fill_snoc, IH, mapPlan_innerItemStep.
Qed.

Lemma mapPlan_flush (st : PlanState) :
  flush (mapPlan g st) = map (map g) (flush st).
Proof.
  unfold flush, mapPlan. simpl. rewrite !length_map.
  destruct (0 <? _)%nat; [|destruct (_ =? _)%nat]; now rewrite ?map_app.
Qed.

Lemma mapPlan_planLoop (l : list QuoteItem) :
  planLoop (map g l) = mapPlan g (planLoop l).
Proof.
  destruct (list_snoc_cases l) as [-> | (l' & x & ->)]; [reflexivity|].
  rewrite map_app. change (map g [x]) with [g x].
  now rewrite !planLoop_snoc, <- mapPlan_lastItemStep, <- mapPlan_fill.
Qed.

End PlanMap.

Section ItemEdits.

Lemma getItemHeight_setField (item : QuoteItem) (fv : FieldValue) :
  touchesText fv = false -> getItemHeight (setField item fv) = getItemHeight item.
Proof. destruct fv; intros H; (discriminate || reflexivity). Qed.

Lemma rowAmount_setField (data : QuotationData) (item : QuoteItem)
    (fv : FieldValue) :
  touchesAmount fv = false ->
  rowAmount data (setField item fv) = rowAmount data item.
Proof. destruct fv; intros H; (discriminate || reflexivity). Qed.

Lemma sumQ_map_ext {A : Type} (f h : A -> Q) (l : list A) :
  (forall x, f x == h x)%Q ->
  (Spec.sumQ (map f l) == Spec.sumQ (map h l))%Q.
Proof.
  intros E. induction l as [|x l IH]; simpl; [reflexivity|].
  now rewrite IH, E.
Qed.

(** The subtotal reads the document only through the tax mode, the tax
    rate and the items. *)
Lemma calculatedSubtotal_withItems (data : QuotationData) (l : list QuoteItem) :
  (calculatedSubtotal (withItems data l)
   == Spec.sumQ (map (rowAmount data) l))%Q.
Proof. rewrite calculatedSubtotal_sum. reflexivity. Qed.

Lemma totals_of_subtotal (d d' : QuotationData) :
  (calculatedSubtotal d' == calculatedSubtotal d)%Q ->
  discount d' = discount d ->
  taxRate (quoteDetails d') = taxRate (quoteDetails d) ->
  (taxableAmount d' == taxableAmount d)%Q
  /\ taxAmount d' = taxAmount d
  /\ (total d' == total d)%Q.
Proof.
  intros Hs Hd Hr.
  assert (Ht : (taxableAmount d' == taxableAmount d)%Q).
  { unfold taxableAmount, Math.maxQ, discountOrZero. rewrite Hd, Hs. reflexivity. }
  assert (Hx : taxAmount d' = taxAmount d).
  { unfold taxAmount. f_equal. apply round_comp. rewrite Hr, Ht. reflexivity. }
  split; [exact Ht|]. split; [exact Hx|].
  unfold total. rewrite Ht, Hx. reflexivity.
Qed.

End ItemEdits.

(** X11.  Editing a quantity, a price or an id never moves a row: the pages
    of the edited document are the pages of the original one with the edit
    applied to the items in place. *)
Theorem updateItem_keeps_layout (i : Z) (fv : FieldValue) (data : QuotationData) :
  touchesText fv = false ->
  pages (updateItem i fv data)
  = map (map (fun item => if Z.eqb (id item) i then setField item fv else item))
      (pages data).
Proof.
  intros Hfv. unfold pages, updateItem. simpl items.
  set (g := fun item => if Z.eqb (id item) i then setField item fv else item).
  assert (Hg : forall x, getItemHeight (g x) = getItemHeight x).
  { intros x. unfold g. destruct (Z.eqb (id x) i); [|reflexivity].
    now apply getItemHeight_setField. }
  rewrite (mapPlan_planLoop g Hg), (mapPlan_flush g). reflexivity.
Qed.

Lemma updateItem_keeps_layout_witness :
  pages (updateItem 8 (PriceField 120) eightBlankData)
  = map (map (fun item =>
                if Z.eqb (id item) 8 then setField item (PriceField 120) else item))
      (pages eightBlankData).
Proof.
  apply (updateItem_keeps_layout 8 (PriceField 120) eightBlankData).
  reflexivity.
Defined.

(** X12.  Editing a name, a spec, a description or an id never changes the
    money: subtotal, taxable amount, tax amount and total stay as they
    were. *)
Theorem updateItem_keeps_totals (i : Z) (fv : FieldValue) (data : QuotationData) :
  touchesAmount fv = false ->
  (calculatedSubtotal (updateItem i fv data) == calculatedSubtotal data)%Q
  /\ (taxableAmount (updateItem i fv data) == taxableAmount data)%Q
  /\ taxAmount (updateItem i fv data) = taxAmount data
  /\ (total (updateItem i fv data) == total data)%Q.
Proof.
  intros Hfv.
  assert (Hs : (calculatedSubtotal (updateItem i fv data)
                == calculatedSubtotal data)%Q).
  { unfold updateItem. rewrite calculatedSubtotal_withItems, calculatedSubtotal_sum.
    unfold Spec.subtotal. rewrite map_map. apply sumQ_map_ext.
    intros x. destruct (Z.eqb (id x) i); [|reflexivity].
    now rewrite rowAmount_setField. }
  split; [exact Hs|]. now apply totals_of_subtotal.
Qed.

Lemma updateItem_keeps_totals_witness :
  (total (updateItem 1 (NameField "worktable") exclusiveData)
   == total exclusiveData)%Q.
Proof.
  apply (updateItem_keeps_totals 1 (NameField "worktable") exclusiveData).
  reflexivity.
Defined.

(** ** Adding and deleting items *)

Section AddDelete.

Lemma filter_absent (i : Z) (l : list QuoteItem) :
  ~ In i (map id l) -> List.filter (fun item => negb (Z.eqb (id item) i)) l = l.
Proof.
  induction l as [|x l IH]; simpl; [reflexivity|]. intros Hni.
  destruct (Z.eqb_spec (id x) i) as [E | _]; simpl.
  - contradiction Hni. now left.
  - rewrite IH; [reflexivity|]. intros H. apply Hni. now right.
Qed.

Lemma filter_unique (i : Z) (l : list QuoteItem) :
  List.NoDup (map id l) ->
  (length l <= length (List.filter (fun item => negb (Z.eqb (id item) i)) l) + 1)%nat.
Proof.
  induction l as [|x l IH]; simpl; [lia|]. intros Hnd.
  apply NoDup_cons_iff in Hnd as [Hx Hnd].
  destruct (Z.eqb_spec (id x) i) as [E | _]; simpl.
  - rewrite filter_absent by (now rewrite <- E). lia.
  - specialize (IH Hnd). lia.
Qed.

Lemma filter_present (i : Z) (l : list QuoteItem) :
  In i (map id l) -> (length (List.filter (fun item => negb (Z.eqb (id item) i)) l) < length l)%nat.
Proof.
  induction l as [|x l IH]; simpl; [contradiction|]. intros Hin.
  pose proof (List.filter_length_le (fun item => negb (Z.eqb (id item) i)) l) as Hle.
  destruct (Z.eqb_spec (id x) i) as [E | Hne]; simpl; [lia|].
  destruct Hin as [Hin | Hin]; [contradiction|]. specialize (IH Hin). lia.
Qed.

Lemma filter_all (i : Z) (l : list QuoteItem) :
  (forall item, In item l -> id item = i) -> List.filter (fun item => negb (Z.eqb (id item) i)) l = [].
Proof.
  induction l as [|x l IH]; simpl; [reflexivity|]. intros Hall.
  rewrite (Hall x) by now left. rewrite Z.eqb_refl. simpl.
  apply IH. intros item Hin. apply Hall. now right.
Qed.

Lemma withItems_items (data : QuotationData) : withItems data (items data) = data.
Proof. now destruct data. Qed.

End AddDelete.

(** X13.  With pairwise distinct ids [deleteItem] never removes the last
    item: a document that has items still has one afterwards.  A document of
    one item is returned unchanged; from a longer one the item with the
    given id, if there is one, is the only one removed. *)
Theorem deleteItem_keeps_an_item (data : QuotationData) (i : Z) :
  List.NoDup (map id (items data)) ->
  items data <> [] ->
  items (deleteItem data i data) <> []
  /\ ((length (items data) <= 1)%nat -> deleteItem data i data = data)
  /\ ((1 < length (items data))%nat -> In i (map id (items data)) ->
      length (items (deleteItem data i data)) = (length (items data) - 1)%nat
      /\ ~ In i (map id (items (deleteItem data i data)))).
Proof.
  intros Hnd Hne. unfold deleteItem.
  pose proof (filter_unique i _ Hnd) as Huniq.
  destruct (length (items data) <=? 1)%nat eqn:Hlen.
  - apply Nat.leb_le in Hlen. split; [exact Hne|]. split; [reflexivity|]. lia.
  - apply Nat.leb_gt in Hlen. simpl. split; [|split].
    + intros E. rewrite E in Huniq. simpl in Huniq. lia.
    + lia.
    + intros _ Hin. pose proof (filter_present i _ Hin) as Hlt. split; [lia|].
      intros Hstill. apply in_map_iff in Hstill as (item & Hid & Hitem).
      apply List.filter_In in Hitem as [_ Hk].
      rewrite Hid, Z.eqb_refl in Hk. discriminate.
Qed.

Lemma deleteItem_keeps_an_item_witness :
  items (deleteItem eightBlankData 3 eightBlankData) <> [].
Proof.
  apply (deleteItem_keeps_an_item eightBlankData 3).
  - repeat (apply List.NoDup_cons;
            [simpl; intros H; repeat (destruct H as [H | H]; [discriminate|]);
             exact H|]).
    apply List.NoDup_nil.
  - discriminate.
Defined.

(** X14.  The guard of [deleteItem] counts items, not ids: when a document
    has more than one item and all of them carry the id that is deleted (ids
    are timestamps and can coincide), no item is left. *)
Theorem deleteItem_shared_id (data : QuotationData) (i : Z) :
  (1 < length (items data))%nat ->
  (forall item, In item (items data) -> id item = i) ->
  items (deleteItem data i data) = [].
Proof.
  intros Hlen Hall. unfold deleteItem.
  replace (length (items data) <=? 1)%nat with false
    by (symmetry; apply Nat.leb_gt; lia).
  simpl. now apply filter_all.
Qed.

Lemma deleteItem_shared_id_witness :
  items (deleteItem (addItem 7 (addItem 7 (withItems exclusiveData [])))
           7 (addItem 7 (addItem 7 (withItems exclusiveData [])))) = [].
Proof.
  apply (deleteItem_shared_id
           (addItem 7 (addItem 7 (withItems exclusiveData []))) 7).
  - simpl. lia.
  - simpl. intros item [<- | [<- | []]]; reflexivity.
Defined.

(** X15.  Adding an item and deleting it again gives the document back,
    provided the document had an item and the new id was not in use; on a
    document without items the added item stays, because it is then the
    only one. *)
Theorem deleteItem_addItem (data : QuotationData) (now : Z) :
  ~ In now (map id (items data)) ->
  (items data <> [] ->
   deleteItem (addItem now data) now (addItem now data) = data)
  /\ (items data = [] ->
      deleteItem (addItem now data) now (addItem now data) = addItem now data).
Proof.
  intros Hfresh. unfold deleteItem, addItem. simpl items. split.
  - intros Hne.
    assert (Hlen : (length (items data ++ [mkItem now "" "" None 1 0]) <=? 1)%nat
                   = false).
    { apply Nat.leb_gt. rewrite length_app. simpl.
      destruct (items data); [contradiction | simpl; lia]. }
    rewrite Hlen. unfold withItems. simpl.
    rewrite List.filter_app, filter_absent by exact Hfresh.
    simpl. rewrite Z.eqb_refl. simpl. rewrite app_nil_r.
    now destruct data.
  - intros ->. reflexivity.
Qed.

Lemma deleteItem_addItem_witness :
  deleteItem (addItem 9 eightBlankData) 9 (addItem 9 eightBlankData)
  = eightBlankData.
Proof.
  apply (deleteItem_addItem eightBlankData 9).
  - simpl. intros H. repeat (destruct H as [H | H]; [discriminate|]). exact H.
  - discriminate.
Defined.

(** ** Reordering *)

Section Splice.

Context {A : Type}.

Lemma spliceOut_perm (from : nat) (x : A) (l : list A) :
  l !! from = Some x -> l ≡ₚ x :: spliceOut from l.
Proof.
  intros Hx. unfold spliceOut.
  rewrite <- (take_drop_middle _ _ _ Hx) at 1.
  symmetry. apply Permutation_middle.
Qed.

Lemma spliceIn_perm (to : nat) (x : A) (l : list A) :
  spliceIn to x l ≡ₚ x :: l.
Proof.
  unfold spliceIn. rewrite <- Permutation_middle. now rewrite take_drop.
Qed.

Lemma spliceIn_lookup (to : nat) (x : A) (l : list A) :
  (to <= length l)%nat -> spliceIn to x l !! to = Some x.
Proof.
  intros Hto. unfold spliceIn.
  rewrite lookup_app_r by (rewrite length_take; lia).
  replace (to - length (take to l))%nat with 0%nat
    by (rewrite length_take; lia).
  reflexivity.
Qed.

Lemma spliceOut_spliceIn (to : nat) (x : A) (l : list A) :
  (to <= length l)%nat -> spliceOut to (spliceIn to x l) = l.
Proof.
  intros Hto. unfold spliceOut, spliceIn.
  assert (Hlen : length (take to l) = to) by (rewrite length_take; lia).
  rewrite (take_app_length' _ _ _ (eq_sym Hlen)).
  replace (S to) with (to + 1)%nat by lia.
  rewrite <- drop_drop, (drop_app_length' _ _ _ (eq_sym Hlen)).
  simpl. rewrite drop_0. apply take_drop.
Qed.

Lemma spliceIn_spliceOut (from : nat) (x : A) (l : list A) :
  l !! from = Some x -> spliceIn from x (spliceOut from l) = l.
Proof.
  intros Hx. unfold spliceOut, spliceIn.
  assert (Hlen : length (take from l) = from).
  { apply lookup_lt_Some in Hx. rewrite length_take. lia. }
  rewrite (take_app_length' _ _ _ (eq_sym Hlen)),
    (drop_app_length' _ _ _ (eq_sym Hlen)).
  now apply take_drop_middle.
Qed.

Lemma length_spliceOut (from : nat) (x : A) (l : list A) :
  l !! from = Some x -> S (length (spliceOut from l)) = length l.
Proof.
  intros Hx. apply spliceOut_perm in Hx. apply Permutation_length in Hx.
  simpl in Hx. lia.
Qed.

End Splice.

Lemma handleSort_in_range (data : QuotationData) (from to : nat) (x : QuoteItem) :
  items data !! from = Some x ->
  (to < length (items data))%nat ->
  exists data' : QuotationData,
    handleSort (mkRefs (Some from) (Some to)) data
    = Some (data', mkRefs None None)
    /\ items data' ≡ₚ items data
    /\ items data' !! to = Some x
    /\ spliceOut to (items data') = spliceOut from (items data)
    /\ data' = withItems data (items data').
Proof.
  intros Hx Hto. unfold handleSort. simpl.
  destruct (Nat.eqb_spec from to) as [<- | Hne].
  - exists data. split; [reflexivity|]. split; [reflexivity|].
    split; [exact Hx|]. split; [reflexivity|]. now rewrite withItems_items.
  - rewrite Hx. eexists. split; [reflexivity|]. simpl.
    pose proof (length_spliceOut _ _ _ Hx) as Hlen.
    split; [|split; [|split]].
    + rewrite spliceIn_perm. symmetry. now apply spliceOut_perm.
    + apply spliceIn_lookup. lia.
    + apply spliceOut_spliceIn. lia.
    + reflexivity.
Qed.

(** X16.  A drag from a valid row index to another moves the dragged item to
    the target index and changes nothing else: the new item list is a
    rearrangement of the old one, the dragged item sits at the target index,
    the other items keep their order, and the rest of the document is
    untouched.  Both refs are cleared. *)
Theorem handleSort_moves (data : QuotationData) (from to : nat) (x : QuoteItem) :
  items data !! from = Some x ->
  (to < length (items data))%nat ->
  exists data' : QuotationData,
    handleSort (mkRefs (Some from) (Some to)) data
    = Some (data', mkRefs None None)
    /\ items data' ≡ₚ items data
    /\ items data' !! to = Some x
    /\ spliceOut to (items data') = spliceOut from (items data)
    /\ data' = withItems data (items data').
Proof. exact (handleSort_in_range data from to x). Qed.

Lemma handleSort_moves_witness :
  exists data' : QuotationData,
    handleSort (mkRefs (Some 0%nat) (Some 2%nat)) tallItemData
    = Some (data', mkRefs None None)
    /\ items data' !! 2%nat = Some (blankItem 1).
Proof.
  destruct (handleSort_moves tallItemData 0 2 (blankItem 1) eq_refl)
    as (data' & H & _ & Hat & _).
  - simpl. lia.
  - now exists data'.
Defined.

(** X17.  Dragging the item back undoes the drag: after a move from one
    valid index to another, the move in the opposite direction restores the
    document. *)
Theorem handleSort_undo (data data' : QuotationData) (from to : nat)
    (refs' : DragRefs) :
  (from < length (items data))%nat ->
  (to < length (items data))%nat ->
  handleSort (mkRefs (Some from) (Some to)) data = Some (data', refs') ->
  handleSort (mkRefs (Some to) (Some from)) data'
  = Some (data, mkRefs None None).
Proof.
  intros Hfrom Hto.
  destruct (lookup_lt_is_Some_2 _ _ Hfrom) as [x Hx].
  destruct (handleSort_in_range data from to x Hx Hto)
    as (d & Hd & _ & Hat & Hrest & Hdoc).
  rewrite Hd. intros [= <- <-]. unfold handleSort. simpl.
  destruct (Nat.eqb_spec to from) as [-> | Hne].
  - unfold handleSort in Hd. simpl in Hd. rewrite Nat.eqb_refl in Hd.
    now injection Hd as <-.
  - rewrite Hat, Hrest, (spliceIn_spliceOut _ _ _ Hx).
    rewrite Hdoc. unfold withItems. simpl. now destruct data.
Qed.

Lemma handleSort_undo_witness :
  handleSort (mkRefs (Some 2%nat) (Some 0%nat))
    (withItems tallItemData [tallItem; blankItem 3; blankItem 1])
  = Some (tallItemData, mkRefs None None).
Proof.
  apply (handleSort_undo tallItemData _ 0 2 (mkRefs None None)).
  - simpl. lia.
  - simpl. lia.
  - reflexivity.
Defined.

(** X18.  [handleSort] does nothing while a ref is unset, and it yields no
    item list exactly when both refs are set, differ, and the dragged index
    is past the end of the list. *)
Theorem handleSort_edges (refs : DragRefs) (data : QuotationData) :
  (dragItem refs = None \/ dragOverItem refs = None ->
   handleSort refs data = Some (data, refs))
  /\ (handleSort refs data = None <->
      exists from to : nat,
        dragItem refs = Some from /\ dragOverItem refs = Some to
        /\ from <> to /\ (length (items data) <= from)%nat).
Proof.
  unfold handleSort. split.
  - intros [-> | ->]; [reflexivity|]. now destruct (dragItem refs).
  - split.
    + destruct (dragItem refs) as [from|], (dragOverItem refs) as [to|];
        try discriminate.
      destruct (Nat.eqb_spec from to) as [_ | Hne]; [discriminate|].
      destruct (items data !! from) eqn:Hx; [discriminate|]. intros _.
      exists from, to. repeat split; try assumption.
      now apply lookup_ge_None.
    + intros (from & to & -> & -> & Hne & Hlen).
      apply Nat.eqb_neq in Hne. rewrite Hne.
      apply lookup_ge_None in Hlen. now rewrite Hlen.
Qed.

Lemma handleSort_edges_witness :
  handleSort (mkRefs None (Some 1%nat)) tallItemData
  = Some (tallItemData, mkRefs None (Some 1%nat)).
Proof.
  apply (proj1 (handleSort_edges (mkRefs None (Some 1%nat)) tallItemData)).
  now left.
Defined.

(** ** The single-page preview *)

Section SinglePageFacts.

Variable data : QuotationData.

Lemma singlePage_subtotal_sum :
  (SinglePage.calculatedSubtotal data
   == Spec.sumQ (map (SinglePage.rowAmount data) (items data)))%Q.
Proof.
  unfold SinglePage.calculatedSubtotal, SinglePage.rowAmount.
  destruct (isTaxInclusive data).
  - now rewrite forEach_sumQ, Qplus_0_l.
  - now rewrite forEach_sumQ, Qplus_0_l.
Qed.


End SinglePageFacts.

(** X20.  In the single-page preview the subtotal is the sum of the amounts
    shown in the rows, and in tax-exclusive mode it shows the same row
    amounts, subtotal, tax amount and total as the paged preview. *)
Theorem singlePage_adds_up (data : QuotationData) :
  (SinglePage.calculatedSubtotal data
   == Spec.sumQ (map (SinglePage.rowAmount data) (items data)))%Q
  /\ (isTaxInclusive data = false ->
      (forall item, SinglePage.rowAmount data item == rowAmount data item)%Q
      /\ (SinglePage.calculatedSubtotal data == calculatedSubtotal data)%Q
      /\ SinglePage.taxAmount data = taxAmount data
      /\ (SinglePage.total data == total data)%Q).
Proof.
  split; [apply singlePage_subtotal_sum|]. intros Hex.
  assert (Hrow : forall item,
             (SinglePage.rowAmount data item == rowAmount data item)%Q).
  { intros item. unfold SinglePage.rowAmount, rowAmount, getPreTaxUnitPrice.
    rewrite Hex. reflexivity. }
  assert (Hsub : (SinglePage.calculatedSubtotal data == calculatedSubtotal data)%Q).
  { rewrite singlePage_subtotal_sum, calculatedSubtotal_sum.
    unfold Spec.subtotal. now apply sumQ_map_ext. }
  assert (Htax : (SinglePage.taxableAmount data == taxableAmount data)%Q).
  { unfold SinglePage.taxableAmount, taxableAmount, Math.maxQ. now rewrite Hsub. }
  assert (Hamt : SinglePage.taxAmount data = taxAmount data).
  { unfold SinglePage.taxAmount, taxAmount. f_equal. apply round_comp.
    now rewrite Htax. }
  split; [exact Hrow|]. split; [exact Hsub|]. split; [exact Hamt|].
  unfold SinglePage.total, total. now rewrite Htax, Hamt.
Qed.

Lemma singlePage_adds_up_witness :
  (SinglePage.total exclusiveData == total exclusiveData)%Q.
Proof.
  apply (proj2 (singlePage_adds_up exclusiveData)). reflexivity.
Defined.



(** The bound is met by differing amounts: three units at 10 with 5 % tax
    included are 29 in the single-page preview and 30 in the paged one. *)
Example previews_differ :
  (SinglePage.rowAmount inclusiveData (mkItem 2 "" "" None 3 10) == 29)%Q
  /\ (rowAmount inclusiveData (mkItem 2 "" "" None 3 10) == 30)%Q.
Proof. split; reflexivity. Qed.

(** ** Image downscaling *)



(** ** The arithmetic question *)

Section MathProblemFacts.

Lemma randomBelow_range (r : Q) (n : Z) :
  unitDraw r -> 0 < n -> 0 <= randomBelow r n <= n - 1.
Proof.
  intros [Hlo Hhi] Hn. unfold randomBelow.
  assert (Hn' : (0 < inject_Z n)%Q)
    by (change 0%Q with (inject_Z 0); now rewrite <- Zlt_Qlt).
  split.
  - change 0 with (Qfloor 0). apply Qfloor_resp_le.
    apply Qmult_le_0_compat; lra.
  - pose proof (Qfloor_le (r * inject_Z n)) as Hfl.
    assert (Hlt : (r * inject_Z n < 1 * inject_Z n)%Q)
      by (apply Qmult_lt_compat_r; assumption).
    assert (H : (inject_Z (Qfloor (r * inject_Z n)) < inject_Z n)%Q).
    { set (m := inject_Z n) in *. set (rm := (r * m)%Q) in *. lra. }
    rewrite <- Zlt_Qlt in H. lia.
Qed.

Lemma randomBelow_interval (r : Q) (n k : Z) :
  (inject_Z k <= r * inject_Z n)%Q -> (r * inject_Z n < inject_Z (k + 1))%Q ->
  randomBelow r n = k.
Proof.
  intros Hlo Hhi. unfold randomBelow.
  pose proof (Qfloor_le (r * inject_Z n)) as H1.
  pose proof (Qlt_floor (r * inject_Z n)) as H2.
  assert (A : (inject_Z k < inject_Z (Qfloor (r * inject_Z n) + 1))%Q) by lra.
  assert (B : (inject_Z (Qfloor (r * inject_Z n)) < inject_Z (k + 1))%Q) by lra.
  rewrite <- Zlt_Qlt in A, B. lia.
Qed.

Lemma existsb_eqb_In (x : Z) (l : list Z) :
  existsb (Z.eqb x) l = true <-> In x l.
Proof.
  rewrite existsb_exists. split.
  - intros (y & Hy & E). apply Z.eqb_eq in E. now subst.
  - intros Hx. exists x. split; [exact Hx | apply Z.eqb_refl].
Qed.

Lemma setAdd_In (x y : Z) (l : list Z) :
  In x (setAdd y l) <-> x = y \/ In x l.
Proof.
  unfold setAdd. destruct (existsb (Z.eqb y) l) eqn:E.
  - apply existsb_eqb_In in E. split; [now right|]. intros [-> | H]; assumption.
  - rewrite in_app_iff. simpl. split.
    + intros [H | [H | []]]; [now right | now left].
    + intros [-> | H]; [right; now left | now left].
Qed.

Lemma setAdd_NoDup (y : Z) (l : list Z) :
  List.NoDup l -> List.NoDup (setAdd y l).
Proof.
  intros Hnd. unfold setAdd. destruct (existsb (Z.eqb y) l) eqn:E; [exact Hnd|].
  assert (Hy : ~ In y l).
  { intros H. apply existsb_eqb_In in H. congruence. }
  apply (Permutation_NoDup (Permutation_cons_append l y)).
  now constructor.
Qed.

Lemma setAdd_length (y : Z) (l : list Z) :
  (length (setAdd y l) <= length l + 1)%nat.
Proof.
  unfold setAdd. destruct (existsb (Z.eqb y) l); [lia|].
  rewrite length_app. simpl. lia.
Qed.

Lemma optionsInv_setAdd (a wrong : Z) (opts : list Z) :
  optionsInv a opts -> (length opts < 3)%nat ->
  0 < wrong -> a - 2 <= wrong <= a + 2 ->
  optionsInv a (setAdd wrong opts).
Proof.
  intros (Hin & Hnd & Hlen & Hall) Hlt Hpos Hnear.
  pose proof (setAdd_length wrong opts).
  split; [apply setAdd_In; now right|].
  split; [now apply setAdd_NoDup|]. split; [lia|].
  intros o Ho. apply setAdd_In in Ho as [-> | Ho]; [now split | now apply Hall].
Qed.

Lemma optionsLoop_sound (a : Z) (draws draws' : list Q) (opts opts' : list Z) :
  Forall unitDraw draws -> optionsInv a opts ->
  optionsLoop a draws opts = Some (opts', draws') ->
  optionsInv a opts' /\ length opts' = 3%nat.
Proof.
  intros Hdraws. revert opts.
  induction Hdraws as [|r draws Hr _ IH]; intros opts Hinv; simpl.
  - destruct (length opts <? 3)%nat eqn:E; [discriminate|].
    intros [= <- _]. apply Nat.ltb_ge in E.
    split; [exact Hinv|]. destruct Hinv as (_ & _ & Hlen & _). lia.
  - destruct (length opts <? 3)%nat eqn:E.
    + apply Nat.ltb_lt in E.
      pose proof (randomBelow_range r 5 Hr ltac:(lia)) as Hk.
      destruct ((_ >? 0) && _) eqn:Hok.
      * apply andb_prop in Hok as [Hpos _].
        rewrite Z.gtb_ltb in Hpos. apply Z.ltb_lt in Hpos.
        apply IH. apply optionsInv_setAdd; [assumption | assumption | lia | lia].
      * now apply IH.
    + intros [= <- _]. apply Nat.ltb_ge in E.
      split; [exact Hinv|]. destruct Hinv as (_ & _ & Hlen & _). lia.
Qed.

Lemma three_members (a : Z) (opts : list Z) :
  List.NoDup opts -> In a opts -> In (a + 1) opts -> In (a + 2) opts ->
  (3 <= length opts)%nat.
Proof.
  intros Hnd H0 H1 H2.
  assert (Hl : List.NoDup [a; a + 1; a + 2]).
  { repeat constructor; simpl; intros H;
      repeat (destruct H as [H | H]; [lia|]); exact H. }
  apply (NoDup_incl_length Hl).
  intros x [<- | [<- | [<- | []]]]; assumption.
Qed.

Lemma optionsLoop_returns (a : Z) (draws : list Q) (opts : list Z) :
  0 <= a -> List.NoDup opts -> In a opts ->
  (In (a + 1) opts \/ exists r, In r draws /\ randomBelow r 5 = 3) ->
  (In (a + 2) opts \/ exists r, In r draws /\ randomBelow r 5 = 4) ->
  exists res, optionsLoop a draws opts = Some res.
Proof.
  intros Ha. revert opts.
  induction draws as [|r draws IH]; intros opts Hnd H0 H1 H2; simpl.
  - destruct H1 as [H1 | (r & [] & _)]. destruct H2 as [H2 | (r & [] & _)].
    pose proof (three_members a opts Hnd H0 H1 H2) as Hlen.
    replace (length opts <? 3)%nat with false
      by (symmetry; apply Nat.ltb_ge; lia).
    eauto.
  - destruct (length opts <? 3)%nat; [|eauto].
    destruct ((_ >? 0) && _) eqn:Hok.
    + apply IH.
      * now apply setAdd_NoDup.
      * apply setAdd_In. now right.
      * destruct H1 as [H1 | (r' & [<- | Hr'] & Hv)].
        -- left. apply setAdd_In. now right.
        -- left. apply setAdd_In. left. lia.
        -- right. now exists r'.
      * destruct H2 as [H2 | (r' & [<- | Hr'] & Hv)].
        -- left. apply setAdd_In. now right.
        -- left. apply setAdd_In. left. lia.
        -- right. now exists r'.
    + apply andb_false_iff in Hok.
      apply IH; [assumption | assumption | |].
      * destruct H1 as [H1 | (r' & [<- | Hr'] & Hv)]; [now left | | right; now exists r'].
        rewrite Hv in Hok. destruct Hok as [Hok | Hok].
        -- rewrite Z.gtb_ltb in Hok. apply Z.ltb_ge in Hok. lia.
        -- apply negb_false_iff, Z.eqb_eq in Hok. lia.
      * destruct H2 as [H2 | (r' & [<- | Hr'] & Hv)]; [now left | | right; now exists r'].
        rewrite Hv in Hok. destruct Hok as [Hok | Hok].
        -- rewrite Z.gtb_ltb in Hok. apply Z.ltb_ge in Hok. lia.
        -- apply negb_false_iff, Z.eqb_eq in Hok. lia.
Qed.

Lemma optionsInv_start (a : Z) : 0 < a -> optionsInv a (setAdd a []).
Proof.
  intros Ha. unfold setAdd. simpl.
  split; [now left|]. split; [repeat constructor; intros []|].
  split; [simpl; lia|]. intros o [<- | []]. lia.
Qed.

End MathProblemFacts.

(** X23.  Whatever problem [generateMathProblem] returns, its answer is the
    sum of two numbers from 1 to 9 named in the question, and its options
    are three pairwise distinct positive numbers within 2 of the answer, the
    answer among them. *)
Theorem generateMathProblem_sound
    (sortRandomly : list Q -> list Z -> list Z) (draws : list Q)
    (problem : MathProblem) :
  (forall ds l, sortRandomly ds l ≡ₚ l) ->
  Forall unitDraw draws ->
  generateMathProblem sortRandomly draws = Some problem ->
  (exists num1 num2 : Z,
     1 <= num1 <= 9 /\ 1 <= num2 <= 9
     /\ answer problem = num1 + num2
     /\ question problem
        = (numberToString num1 ++ " + " ++ numberToString num2 ++ " = ?")%string)
  /\ In (answer problem) (options problem)
  /\ length (options problem) = 3%nat
  /\ List.NoDup (options problem)
  /\ (forall o : Z, In o (options problem) ->
        0 < o /\ answer problem - 2 <= o <= answer problem + 2).
Proof.
  intros Hsort Hdraws. unfold generateMathProblem.
  destruct draws as [|r1 [|r2 rest]]; try discriminate.
  apply Forall_cons in Hdraws as [Hr1 Hdraws].
  apply Forall_cons in Hdraws as [Hr2 Hrest].
  pose proof (randomBelow_range r1 9 Hr1 ltac:(lia)) as H1.
  pose proof (randomBelow_range r2 9 Hr2 ltac:(lia)) as H2.
  set (num1 := randomBelow r1 9 + 1) in *.
  set (num2 := randomBelow r2 9 + 1) in *.
  destruct (optionsLoop (num1 + num2) rest (setAdd (num1 + num2) []))
    as [[opts left]|] eqn:Hloop; [|discriminate].
  intros [= <-]. simpl.
  destruct (optionsLoop_sound _ _ _ _ _ Hrest
              (optionsInv_start (num1 + num2) ltac:(lia)) Hloop)
    as [(Hin & Hnd & _ & Hall) Hlen].
  pose proof (Hsort left opts) as Hperm.
  split; [exists num1, num2; repeat split; lia|].
  split; [now apply (Permutation_in _ (Permutation_sym Hperm))|].
  split; [now rewrite (Permutation_length Hperm)|].
  split; [now apply (Permutation_NoDup (Permutation_sym Hperm))|].
  intros o Ho. apply Hall. now apply (Permutation_in _ Hperm).
Qed.

Lemma generateMathProblem_sound_witness :
  In 13 [13; 11; 15] /\ length [13; 11; 15] = 3%nat.
Proof.
  destruct (generateMathProblem_sound (fun _ l => l)
              [1 # 3; 8 # 9; 1 # 10; 1 # 2; 9 # 10]%Q
              (mkProblem "4 + 9 = ?" 13 [13; 11; 15]))
    as (_ & Hin & Hlen & _).
  - intros ds l. reflexivity.
  - repeat (apply Forall_cons; split;
            [split; [vm_compute; discriminate | vm_compute; reflexivity]|]).
    apply Forall_nil_2.
  - reflexivity.
  - split; [exact Hin | exact Hlen].
Defined.

(** X24.  [generateMathProblem] returns a problem as soon as the draws after
    the first two contain one in [3/5, 4/5) and one in [4/5, 1): they offer
    the answer plus 1 and the answer plus 2, which always qualify. *)
Theorem generateMathProblem_returns
    (sortRandomly : list Q -> list Z -> list Z)
    (r1 r2 ra rb : Q) (rest : list Q) :
  unitDraw r1 -> unitDraw r2 ->
  In ra rest -> (3 # 5 <= ra)%Q -> (ra < 4 # 5)%Q ->
  In rb rest -> (4 # 5 <= rb)%Q -> (rb < 1)%Q ->
  exists problem : MathProblem,
    generateMathProblem sortRandomly (r1 :: r2 :: rest) = Some problem.
Proof.
  intros Hr1 Hr2 Hain Ha1 Ha2 Hbin Hb1 Hb2. unfold generateMathProblem.
  pose proof (randomBelow_range r1 9 Hr1 ltac:(lia)) as H1.
  pose proof (randomBelow_range r2 9 Hr2 ltac:(lia)) as H2.
  set (a := randomBelow r1 9 + 1 + (randomBelow r2 9 + 1)).
  destruct (optionsLoop_returns a rest (setAdd a [])) as [[opts left] Hres].
  - unfold a. lia.
  - repeat constructor. intros [].
  - now left.
  - right. exists ra. split; [exact Hain|].
    apply randomBelow_interval.
    + change (inject_Z 3) with 3%Q. change (inject_Z 5) with 5%Q. lra.
    + change (inject_Z (3 + 1)) with 4%Q. change (inject_Z 5) with 5%Q. lra.
  - right. exists rb. split; [exact Hbin|].
    apply randomBelow_interval.
    + change (inject_Z 4) with 4%Q. change (inject_Z 5) with 5%Q. lra.
    + change (inject_Z (4 + 1)) with 5%Q. change (inject_Z 5) with 5%Q. lra.
  - rewrite Hres. eauto.
Qed.

Lemma generateMathProblem_returns_witness :
  exists problem : MathProblem,
    generateMathProblem (fun _ l => l)
      [1 # 3; 8 # 9; 1 # 2; 7 # 10; 9 # 10]%Q = Some problem.
Proof.
  apply (generateMathProblem_returns (fun _ l => l)
           (1 # 3) (8 # 9) (7 # 10) (9 # 10) [1 # 2; 7 # 10; 9 # 10]%Q).
  - split; [vm_compute; discriminate | vm_compute; reflexivity].
  - split; [vm_compute; discriminate | vm_compute; reflexivity].
  - simpl. right. now left.
  - vm_compute. discriminate.
  - vm_compute. reflexivity.
  - simpl. right. right. now left.
  - vm_compute. discriminate.
  - vm_compute. reflexivity.
Defined.

(** ** Whole amounts, discounts, and dragging rendered rows *)

Section MoreTotals.



End MoreTotals.





(** X27.  Dragging one rendered row onto another always succeeds: the array
    indices taken from the two slots are valid, the drag returns a document,
    and in it the dragged item has the position the target row had. *)
Theorem drag_rendered_rows (data : QuotationData) (p i q j : nat)
    (pg pg' : list QuoteItem) (x y : QuoteItem) :
  pages data !! p = Some pg -> pg !! i = Some x ->
  pages data !! q = Some pg' -> pg' !! j = Some y ->
  exists (from to : nat) (data' : QuotationData),
    arrayIndex (pages data) p i = Some from
    /\ arrayIndex (pages data) q j = Some to
    /\ items data !! from = Some x
    /\ items data !! to = Some y
    /\ handleSort (mkRefs (Some from) (Some to)) data
       = Some (data', mkRefs None None)
    /\ items data' !! to = Some x.
Proof.
  intros Hp Hi Hq Hj.
  pose proof (lookup_lt_Some _ _ _ Hp) as Hpl.
  pose proof (lookup_lt_Some _ _ _ Hq) as Hql.
  pose proof (concat_lookup_slot _ _ _ _ _ Hp Hi) as Hx.
  pose proof (concat_lookup_slot _ _ _ _ _ Hq Hj) as Hy.
  rewrite (concat_pages data) in Hx, Hy.
  set (from := (length (concat (take p (pages data))) + i)%nat) in *.
  set (to := (length (concat (take q (pages data))) + j)%nat) in *.
  destruct (handleSort_in_range data from to x Hx (lookup_lt_Some _ _ _ Hy))
    as (data' & Hs & _ & Hat & _).
  exists from, to, data'. unfold arrayIndex.
  rewrite !getGlobalIndex_closed by lia.
  replace (length (concat (take p (pages data))) + i + 1 - 1)%nat with from
    by (unfold from; lia).
  replace (length (concat (take q (pages data))) + j + 1 - 1)%nat with to
    by (unfold to; lia).
  repeat split; assumption.
Qed.

Lemma drag_rendered_rows_witness :
  exists (from to : nat) (data' : QuotationData),
    arrayIndex (pages fiveThreeData) 1 0 = Some from
    /\ arrayIndex (pages fiveThreeData) 0 0 = Some to
    /\ handleSort (mkRefs (Some from) (Some to)) fiveThreeData
       = Some (data', mkRefs None None).
Proof.
  destruct (drag_rendered_rows fiveThreeData 1 0 0 0
              (map blankItem [6; 7; 8]) (map fourLineItem [1; 2; 3; 4; 5])
              (blankItem 6) (fourLineItem 1))
    as (from & to & data' & H1 & H2 & _ & _ & H3 & _).
  - vm_compute. reflexivity.
  - reflexivity.
  - vm_compute. reflexivity.
  - reflexivity.
  - now exists from, to, data'.
Defined.
